(** * The Game Boy CPU core of teal-gameboy (src/gameboy-emu/cpu.ts)

    A shallow embedding of the [CPU] class: registers and flags as a record,
    every handler as a function from processor state to processor state,
    JavaScript's numbers as [Z] with the 32-bit conversions of the bitwise
    operators written out. *)

From Stdlib Require Import ZArith Bool List String Lia.
Import ListNotations.
Local Open Scope string_scope.
Local Open Scope Z_scope.

(** ** JavaScript's integer operators

    The class keeps integers in its [number] fields.  [&], [|], [^], [<<]
    and [>>] convert their operands with ToInt32 and give a signed 32-bit
    result; [+] and [-] are exact on the integers met here. *)
Module JS.

Definition ToInt32 (x : Z) : Z :=
  let m := x mod 4294967296 in
  if 2147483648 <=? m then m - 4294967296 else m.

(* x & y *)
Definition band (x y : Z) : Z := Z.land (ToInt32 x) (ToInt32 y).
(* x | y *)
Definition bor (x y : Z) : Z := Z.lor (ToInt32 x) (ToInt32 y).
(* x ^ y *)
Definition bxor (x y : Z) : Z := Z.lxor (ToInt32 x) (ToInt32 y).
(* x << k: the shift count is taken modulo 32 *)
Definition shl (x k : Z) : Z := ToInt32 (Z.shiftl (ToInt32 x) (k mod 32)).
(* x >> k: sign-propagating *)
Definition shr (x k : Z) : Z := Z.shiftr (ToInt32 x) (k mod 32).

End JS.

(** ** ./utils

    The helpers imported from [./utils] are not part of the sources at hand;
    the handlers below only call them. *)
Module Utils.

(** Modelled from the spec: [uint8] of ./utils, missing from the sources.
    "result wraps modulo 256". *)
Definition uint8 (x : Z) : Z := x mod 256.

(** Modelled from the spec: [uint16] of ./utils, missing from the sources.
    "all arithmetic on them wraps modulo 65536". *)
Definition uint16 (x : Z) : Z := x mod 65536.

(** Modelled from the spec: [addCarriesByte] of ./utils, missing from the
    sources.  "carry = true iff the unsigned sum exceeds 255". *)
Definition addCarriesByte (a b : Z) : bool := 255 <? a + b.

(** Modelled from the spec: [addCarriesWord] of ./utils, missing from the
    sources.  "carry = carry out of bit 15". *)
Definition addCarriesWord (a b : Z) : bool := 65535 <? a + b.

(** Modelled from the spec: [addHalfCarriesByte] of ./utils, missing from
    the sources.  "half-carry = carry out of bit 3 of the low nibbles (plus
    any carry-in for the carry variant)", that is
    [(a&0xF)+(b&0xF) > 0xF].  The optional third argument is the carry-in;
    a call with two arguments is a call with carry-in 0. *)
Definition addHalfCarriesByte (a b carry : Z) : bool :=
  15 <? JS.band a 15 + JS.band b 15 + carry.

(** Modelled from the spec: [subHalfCarriesByte] of ./utils, missing from
    the sources.  "half-carry = borrow out of bit 4 of the low nibble
    comparison", with the borrow-in of the carry variant as optional third
    argument (0 when omitted). *)
Definition subHalfCarriesByte (a b carry : Z) : bool :=
  JS.band a 15 - JS.band b 15 - carry <? 0.

(** Modelled from the spec: [addHalfCarriesWord] of ./utils, missing from
    the sources.  "half-carry = carry out of bit 11". *)
Definition addHalfCarriesWord (a b : Z) : bool :=
  4095 <? JS.band a 4095 + JS.band b 4095.

End Utils.

(** ** Register names *)

(* 8 bit registers *)
Module R8.
Inductive t : Set := A | B | C | D | E | H | L.
End R8.

(* 16 bit registers *)
Module R16.
Inductive t : Set := AF | BC | DE | HL | SP.
End R16.

(** ** Flags: the object held in [CPU.F] *)
Module Flags.

Record t : Set := mk {
  z : bool; (* zero flag *)
  n : bool; (* negative flag *)
  h : bool; (* half carry flag *)
  c : bool  (* carry flag *)
}.

Definition toUint8 (this : t) : Z :=
  let f := 0 in
  let f := if z this then JS.bor f 128 else f in (* bit 7 *)
  let f := if n this then JS.bor f 64 else f in  (* bit 6 *)
  let f := if h this then JS.bor f 32 else f in  (* bit 5 *)
  let f := if c this then JS.bor f 16 else f in  (* bit 4 *)
  f.

End Flags.

(** ** The memory unit *)
Module MMU.

(** Modelled from the spec: the [MMU] class of ./mmu, missing from the
    sources.  "readByte(address: 0..65535) -> byte", "writeByte(address:
    0..65535, value: byte)": a memory is a total map from addresses to
    bytes. *)
Record t : Type := mk { mem : Z -> Z }.

Definition rb (m : t) (addr : Z) : Z := mem m addr.

Definition wb (m : t) (addr val : Z) : t :=
  mk (fun a => if a =? addr then val else mem m a).

End MMU.

(** ** Results of calls that may throw *)
Inductive result (T : Type) : Type :=
| Ok (v : T)
| Throw (e : string).
Arguments Ok {T} v.
Arguments Throw {T} e.

(** ** ./opcodes/opcodes: one entry of an opcode table *)
Module Opcodes.

(* [cyclesIfNoJump] is an optional property: [None] is [undefined]. *)
Record data : Set := mk {
  cycles : Z;
  cyclesIfNoJump : option Z
}.

(* A table indexed by an opcode; [None] where the table has no entry. *)
Definition table : Set := Z -> option data.

End Opcodes.

(** ** The CPU class *)
Module CPU.

Record t : Type := mk {
  A : Z; B : Z; C : Z; D : Z; E : Z; H : Z; L : Z;
  F : Flags.t;
  SP : Z;
  PC : Z;
  halted : bool;
  stopped : bool;
  jumped : bool;      (* records whether prev instruction was a jump *)
  ime : bool;         (* Interrupt Master Enable *)
  setIMENext : bool;  (* Set IME on next instruction; used by Ei() command *)
  mmu : MMU.t;
  console : list string (* what the handlers passed to console.warn, oldest first *)
}.

(* The field initialisers of the class, for a given memory unit. *)
Definition new (m : MMU.t) : t :=
  mk 0 0 0 0 0 0 0 (Flags.mk false false false false) 0 0
     false false false false false m [].

(** *** Assignments to fields *)

Definition set_A (v : Z) (s : t) : t :=
  mk v (B s) (C s) (D s) (E s) (H s) (L s) (F s) (SP s) (PC s)
     (halted s) (stopped s) (jumped s) (ime s) (setIMENext s) (mmu s) (console s).
Definition set_B (v : Z) (s : t) : t :=
  mk (A s) v (C s) (D s) (E s) (H s) (L s) (F s) (SP s) (PC s)
     (halted s) (stopped s) (jumped s) (ime s) (setIMENext s) (mmu s) (console s).
Definition set_C (v : Z) (s : t) : t :=
  mk (A s) (B s) v (D s) (E s) (H s) (L s) (F s) (SP s) (PC s)
     (halted s) (stopped s) (jumped s) (ime s) (setIMENext s) (mmu s) (console s).
Definition set_D (v : Z) (s : t) : t :=
  mk (A s) (B s) (C s) v (E s) (H s) (L s) (F s) (SP s) (PC s)
     (halted s) (stopped s) (jumped s) (ime s) (setIMENext s) (mmu s) (console s).
Definition set_E (v : Z) (s : t) : t :=
  mk (A s) (B s) (C s) (D s) v (H s) (L s) (F s) (SP s) (PC s)
     (halted s) (stopped s) (jumped s) (ime s) (setIMENext s) (mmu s) (console s).
Definition set_H (v : Z) (s : t) : t :=
  mk (A s) (B s) (C s) (D s) (E s) v (L s) (F s) (SP s) (PC s)
     (halted s) (stopped s) (jumped s) (ime s) (setIMENext s) (mmu s) (console s).
Definition set_L (v : Z) (s : t) : t :=
  mk (A s) (B s) (C s) (D s) (E s) (H s) v (F s) (SP s) (PC s)
     (halted s) (stopped s) (jumped s) (ime s) (setIMENext s) (mmu s) (console s).
Definition set_F (v : Flags.t) (s : t) : t :=
  mk (A s) (B s) (C s) (D s) (E s) (H s) (L s) v (SP s) (PC s)
     (halted s) (stopped s) (jumped s) (ime s) (setIMENext s) (mmu s) (console s).
Definition set_SP (v : Z) (s : t) : t :=
  mk (A s) (B s) (C s) (D s) (E s) (H s) (L s) (F s) v (PC s)
     (halted s) (stopped s) (jumped s) (ime s) (setIMENext s) (mmu s) (console s).
Definition set_PC (v : Z) (s : t) : t :=
  mk (A s) (B s) (C s) (D s) (E s) (H s) (L s) (F s) (SP s) v
     (halted s) (stopped s) (jumped s) (ime s) (setIMENext s) (mmu s) (console s).
Definition set_jumped (v : bool) (s : t) : t :=
  mk (A s) (B s) (C s) (D s) (E s) (H s) (L s) (F s) (SP s) (PC s)
     (halted s) (stopped s) v (ime s) (setIMENext s) (mmu s) (console s).
Definition set_ime (v : bool) (s : t) : t :=
  mk (A s) (B s) (C s) (D s) (E s) (H s) (L s) (F s) (SP s) (PC s)
     (halted s) (stopped s) (jumped s) v (setIMENext s) (mmu s) (console s).
Definition set_setIMENext (v : bool) (s : t) : t :=
  mk (A s) (B s) (C s) (D s) (E s) (H s) (L s) (F s) (SP s) (PC s)
     (halted s) (stopped s) (jumped s) (ime s) v (mmu s) (console s).
Definition set_mmu (v : MMU.t) (s : t) : t :=
  mk (A s) (B s) (C s) (D s) (E s) (H s) (L s) (F s) (SP s) (PC s)
     (halted s) (stopped s) (jumped s) (ime s) (setIMENext s) v (console s).

(* console.warn(msg) *)
Definition warn (msg : string) (s : t) : t :=
  mk (A s) (B s) (C s) (D s) (E s) (H s) (L s) (F s) (SP s) (PC s)
     (halted s) (stopped s) (jumped s) (ime s) (setIMENext s) (mmu s)
     (console s ++ [msg]).

(* this.F.z = v, and so on: F is one object, mutated in place *)
Definition set_z (v : bool) (s : t) : t :=
  set_F (Flags.mk v (Flags.n (F s)) (Flags.h (F s)) (Flags.c (F s))) s.
Definition set_n (v : bool) (s : t) : t :=
  set_F (Flags.mk (Flags.z (F s)) v (Flags.h (F s)) (Flags.c (F s))) s.
Definition set_h (v : bool) (s : t) : t :=
  set_F (Flags.mk (Flags.z (F s)) (Flags.n (F s)) v (Flags.c (F s))) s.
Definition set_c (v : bool) (s : t) : t :=
  set_F (Flags.mk (Flags.z (F s)) (Flags.n (F s)) (Flags.h (F s)) v) s.

(** *** Register access *)

Definition getR8 (reg8 : R8.t) (this : t) : Z :=
  match reg8 with
  | R8.A => A this
  | R8.B => B this
  | R8.C => C this
  | R8.D => D this
  | R8.E => E this
  | R8.H => H this
  | R8.L => L this
  end.

Definition setR8 (reg8 : R8.t) (val : Z) (this : t) : t :=
  match reg8 with
  | R8.A => set_A val this
  | R8.B => set_B val this
  | R8.C => set_C val this
  | R8.D => set_D val this
  | R8.E => set_E val this
  | R8.H => set_H val this
  | R8.L => set_L val this
  end.

Definition getAF (this : t) : Z :=
  JS.bor (JS.shl (A this) 8) (Flags.toUint8 (F this)).
Definition getBC (this : t) : Z := JS.bor (JS.shl (B this) 8) (C this).
Definition getDE (this : t) : Z := JS.bor (JS.shl (D this) 8) (E this).
Definition getHL (this : t) : Z := JS.bor (JS.shl (H this) 8) (L this).

(* [word & 0xFF00 >> 8] parses as [word & (0xFF00 >> 8)]: in JavaScript
   [>>] binds tighter than [&]. *)
Definition setBC (word : Z) (this : t) : t :=
  let this := set_B (JS.band word (JS.shr 65280 8)) this in
  set_C (JS.band word 255) this.
Definition setDE (word : Z) (this : t) : t :=
  let this := set_D (JS.band word (JS.shr 65280 8)) this in
  set_E (JS.band word 255) this.
Definition setHL (word : Z) (this : t) : t :=
  let this := set_H (JS.band word (JS.shr 65280 8)) this in
  set_L (JS.band word 255) this.

Definition getR16 (reg16 : R16.t) (this : t) : Z :=
  match reg16 with
  | R16.AF => getAF this
  | R16.BC => getBC this
  | R16.DE => getDE this
  | R16.HL => getHL this
  | R16.SP => SP this
  end.

(* The AF case has no [return]: after the warning control falls through
   into the BC case. *)
Definition setR16 (reg16 : R16.t) (val : Z) (this : t) : t :=
  match reg16 with
  | R16.AF => setBC val (warn "set AF not implemented" this)
  | R16.BC => setBC val this
  | R16.DE => setDE val this
  | R16.HL => setHL val this
  | R16.SP => set_SP val this
  end.

(* reads next byte at PC and advances PC *)
Definition nextByte (this : t) : Z * t :=
  let this := set_PC (PC this + 1) this in
  (MMU.rb (mmu this) (PC this), this).

(** *** Opcode helper instructions

    In the order of the class.  The handlers that fetch a 16-bit
    immediate through [mmu.rw] ([ld_a16_SP], [ld_SP_d16], [ld_r16_d16])
    and [jr_int8] are not embedded: no property below involves them. *)

(* INC r8 [z0h-] *)
Definition inc_r8 (reg8 : R8.t) (this : t) : t :=
  let val := getR8 reg8 this in
  let newVal := Utils.uint8 (val + 1) in
  let this := setR8 reg8 newVal this in
  let this := set_z (newVal =? 0) this in
  let this := set_n false this in
  set_h (Utils.addHalfCarriesByte val 1 0) this.

(* DEC r8 [z1h-] *)
Definition dec_r8 (reg8 : R8.t) (this : t) : t :=
  let val := getR8 reg8 this in
  let newVal := Utils.uint8 (val - 1) in
  let this := setR8 reg8 newVal this in
  let this := set_z (newVal =? 0) this in
  let this := set_n true this in
  set_h (Utils.subHalfCarriesByte val 1 0) this.

(* INC r16 [----] *)
Definition inc_r16 (reg16 : R16.t) (this : t) : t :=
  setR16 reg16 (getR16 reg16 this + 1) this.

(* LD r8 d8 [----] *)
Definition ld_r8_d8 (reg8 : R8.t) (this : t) : t :=
  let this := set_PC (PC this + 1) this in
  let d8 := MMU.rb (mmu this) (PC this) in
  setR8 reg8 d8 this.

(* RLCA [000c]
   rotates A left one bit, with bit 7 moved to bit 0 and also stored in the carry. *)
Definition rlc_A (this : t) : t :=
  let carry := negb (JS.band (A this) 128 =? 0) in
  let this :=
    if carry then
      let this := set_A (JS.shl (A this) 1) this in
      let this := set_A (JS.bor (A this) 1) this in
      set_c true this
    else
      let this := set_A (JS.shl (A this) 1) this in
      set_c false this in
  let this := set_z false this in
  let this := set_n false this in
  set_h false this.

(* RRCA [000c]
   rotates A one bit right with bit 0 moved to bit 7 and also stored in the carry. *)
Definition rrc_A (this : t) : t :=
  let carry := negb (JS.band (A this) 1 =? 0) in
  let this :=
    if carry then
      let this := set_A (JS.shr (A this) 1) this in
      let this := set_A (JS.bor (A this) 128) this in
      set_c true this
    else
      let this := set_A (JS.shr (A this) 1) this in
      set_c false this in
  let this := set_z false this in
  let this := set_n false this in
  set_h false this.

(* ADD HL r16 [-0hc] *)
Definition add_HL_r16 (reg16 : R16.t) (this : t) : t :=
  let val := getR16 reg16 this in
  let hl := getHL this in
  let newVal := Utils.uint16 (hl + val) in
  let this := setHL newVal this in
  let this := set_n false this in
  let this := set_h (Utils.addHalfCarriesWord hl val) this in
  set_c (Utils.addCarriesWord hl val) this.

(* DEC r16 [----] *)
Definition dec_r16 (reg16 : R16.t) (this : t) : t :=
  setR16 reg16 (Utils.uint16 (getR16 reg16 this - 1)) this.

(* LD (r16) A [----]
   loads A into (r16) *)
Definition ld_valr16_A (reg16 : R16.t) (this : t) : t :=
  set_mmu (MMU.wb (mmu this) (getR16 reg16 this) (A this)) this.

(* LD (HL+) A [----]
   sets (HL) = A, then increments HL *)
Definition ld_valHLinc_A (this : t) : t :=
  let hl := getHL this in
  let this := set_mmu (MMU.wb (mmu this) hl (A this)) this in
  setHL (Utils.uint16 (hl + 1)) this.

(* LD A (HL-) [---]
   sets A = (HL), then decrements HL *)
Definition ld_A_valHLdec (this : t) : t :=
  let hl := getHL this in
  let this := set_A (MMU.rb (mmu this) hl) this in
  setHL (Utils.uint16 (hl - 1)) this.

(* LD (HL-) A [----]
   sets (HL) = A, then decrements HL *)
Definition ld_valHLdec_A (this : t) : t :=
  let hl := getHL this in
  let this := set_mmu (MMU.wb (mmu this) hl (A this)) this in
  setHL (Utils.uint16 (hl - 1)) this.

(* LD A (HL+) [---]
   sets A = (HL), then increments HL *)
Definition ld_A_valHLinc (this : t) : t :=
  let hl := getHL this in
  let this := set_A (MMU.rb (mmu this) hl) this in
  setHL (Utils.uint16 (hl + 1)) this.

(* LD (HL) d8 [----] *)
Definition ld_valHL_d8 (this : t) : t :=
  let this := set_PC (PC this + 1) this in
  let d8 := MMU.rb (mmu this) (PC this) in
  set_mmu (MMU.wb (mmu this) (getHL this) d8) this.

(* LD r8 (HL) [----] *)
Definition ld_r8_valHL (reg8 : R8.t) (this : t) : t :=
  setR8 reg8 (MMU.rb (mmu this) (getHL this)) this.

(* LD (HL) r8 [----] *)
Definition ld_valHL_r8 (reg8 : R8.t) (this : t) : t :=
  set_mmu (MMU.wb (mmu this) (getHL this) (getR8 reg8 this)) this.

(* INC (HL) [z0h-]
   increments the byte at address HL *)
Definition inc_valHL (this : t) : t :=
  let hl := getHL this in
  let byte := MMU.rb (mmu this) hl in
  let newByte := Utils.uint8 (byte + 1) in
  let this := set_mmu (MMU.wb (mmu this) hl newByte) this in
  let this := set_z (newByte =? 0) this in
  let this := set_n false this in
  set_h (Utils.addHalfCarriesByte byte 1 0) this.

(* DEC (HL) [z1h-] *)
Definition dec_valHL (this : t) : t :=
  let hl := getHL this in
  let byte := MMU.rb (mmu this) hl in
  let newByte := Utils.uint8 (byte - 1) in
  let this := set_mmu (MMU.wb (mmu this) hl newByte) this in
  let this := set_z (newByte =? 0) this in
  let this := set_n true this in
  set_h (Utils.subHalfCarriesByte byte 1 0) this.

(* RLA [000c]
   rotates A one bit left with the carry moved to bit 0
   and bit 7 moved to the carry. *)
Definition rl_A (this : t) : t :=
  let oldCarry := if Flags.c (F this) then 1 else 0 in
  let this := set_c (negb (JS.band (A this) 128 =? 0)) this in
  let this := set_A (JS.shl (A this) 1) this in
  let this := set_A (JS.bor (A this) oldCarry) this in
  let this := set_z false this in
  let this := set_n false this in
  set_h false this.

(* RRA [000c]
   rotates A one bit right with the carry moved to bit 7
   and bit 0 moved to the carry. *)
Definition rr_A (this : t) : t :=
  let oldCarry := if Flags.c (F this) then 1 else 0 in
  let this := set_c (negb (JS.band (A this) 1 =? 0)) this in
  let this := set_A (JS.shr (A this) 1) this in
  let this := set_A (JS.bor (A this) (JS.shl oldCarry 7)) this in
  let this := set_z false this in
  let this := set_n false this in
  set_h false this.

(* ADD A {r8, d8} [z0hc] *)
Definition add (byte : Z) (this : t) : t :=
  let oldA := A this in
  let this := set_A (Utils.uint8 (A this + byte)) this in
  let this := set_z (A this =? 0) this in
  let this := set_n false this in
  let this := set_h (Utils.addHalfCarriesByte oldA byte 0) this in
  set_c (Utils.addCarriesByte oldA byte) this.

(* ADC A {r8, d8} [z0hc]
   sets A = A + {r8, d8} + carry *)
Definition adc (val : Z) (this : t) : t :=
  let carry := if Flags.c (F this) then 1 else 0 in
  let oldA := A this in
  let this := set_A (Utils.uint8 (A this + val + carry)) this in
  let this := set_z (A this =? 0) this in
  let this := set_n false this in
  let this := set_h (Utils.addHalfCarriesByte oldA val carry) this in
  set_c (Utils.addCarriesByte oldA (val + carry)) this.

(* SUB A {r8, d8} [z1hc]
   F.n is assigned twice, F.h not at all. *)
Definition sub (val : Z) (this : t) : t :=
  let oldA := A this in
  let this := set_A (Utils.uint8 (A this - val)) this in
  let this := set_z (A this =? 0) this in
  let this := set_n true this in
  let this := set_n (Utils.subHalfCarriesByte oldA val 0) this in
  set_c (oldA - val <? 0) this.

Definition sbc (val : Z) (this : t) : t :=
  let carry := if Flags.c (F this) then 1 else 0 in
  let oldA := A this in
  let this := set_A (Utils.uint8 (A this - val - carry)) this in
  let this := set_z (A this =? 0) this in
  let this := set_n true this in
  let this := set_h (Utils.subHalfCarriesByte oldA val carry) this in
  set_c (oldA - val - carry <? 0) this.

(* AND A r8 [z010] *)
Definition and (val : Z) (this : t) : t :=
  let this := set_A (JS.band (A this) val) this in
  let this := set_z (A this =? 0) this in
  let this := set_n false this in
  let this := set_h true this in
  set_c false this.

(* XOR A r8 [z010]
   the body is [this.A | val] *)
Definition xor (val : Z) (this : t) : t :=
  let this := set_A (JS.bor (A this) val) this in
  let this := set_z (A this =? 0) this in
  let this := set_n false this in
  let this := set_h true this in
  set_c false this.

(* OR A r8 [z000] *)
Definition or (val : Z) (this : t) : t :=
  let this := set_A (JS.bor (A this) val) this in
  let this := set_z (A this =? 0) this in
  let this := set_n false this in
  let this := set_h false this in
  set_c false this.

(* CP A r8 [z1hc]
   Compare A with value. Essentially a subtraction where you throw
   away the results. *)
Definition cp (val : Z) (this : t) : t :=
  let result := A this - val in
  let this := set_z (result =? 0) this in
  let this := set_n true this in
  let this := set_h (Utils.subHalfCarriesByte (A this) val 0) this in
  set_c (A this - val <? 0) this.

(* DAA [z-0c]
   A binary coded decimal instruction.
   Intended to be called after an addition or subtraction of binary coded
   decimal values.  Adjusts the A register to contain the correct binary
   coded decimal result. *)
Definition daa (this : t) : t :=
  let u := 0 in
  let u :=
    if Flags.h (F this)
       || (negb (Flags.n (F this)) && (9 <? JS.band (A this) 15))
    then 6 else u in
  let '(u, this) :=
    if Flags.c (F this) || (negb (Flags.n (F this)) && (153 <? A this))
    then (JS.bor u 96, set_c true this) else (u, this) in
  let this :=
    if Flags.n (F this)
    then set_A (Utils.uint8 (A this - u)) this
    else set_A (Utils.uint8 (A this + u)) this in
  let this := set_z (A this =? 0) this in
  set_h false this.

(* CPL [-11-] *)
Definition cpl (this : t) : t :=
  let this := set_A (JS.bxor (A this) 255) this in
  let this := set_n true this in
  set_h true this.

(* SCF [-001] *)
Definition scf (this : t) : t :=
  let this := set_n false this in
  let this := set_h false this in
  set_c true this.

(* CCF [-00c] *)
Definition ccf (this : t) : t :=
  let this := set_n false this in
  let this := set_h false this in
  set_c (negb (Flags.c (F this))) this.

(** *** The dispatcher

    [execute] is called by [step] but the class does not define it, and
    the two opcode tables come from ./opcodes/opcodes: [step] is stated
    over all three. *)
Section Step.

Variable unprefixedOpcodeTable prefixedOpcodeTable : Opcodes.table.
Variable execute : Z -> bool -> t -> result t.

(* executes the next instruction and returns the number of cycles
   consumed.  Reading a property of a missing table entry throws a
   TypeError, after [execute] has run. *)
Definition step (this : t) : result (t * Z) :=
  let this := set_jumped false this in
  let opcode := MMU.rb (mmu this) (PC this) in
  let prefixed := false in
  let '(this, opcode, prefixed) :=
    if opcode =? 203 then
      let this := set_PC (PC this + 1) this in
      (this, MMU.rb (mmu this) (PC this), true)
    else (this, opcode, prefixed) in
  let opcData :=
    if prefixed then prefixedOpcodeTable opcode
    else unprefixedOpcodeTable opcode in
  match execute opcode prefixed this with
  | Throw e => Throw e
  | Ok this =>
      match opcData with
      | None => Throw "TypeError"
      | Some opcData =>
          if jumped this then Ok (this, Opcodes.cycles opcData)
          else
            match Opcodes.cyclesIfNoJump opcData with
            | Some k =>
                if k =? 0 then Ok (this, Opcodes.cycles opcData)
                else Ok (this, k)
            | None => Ok (this, Opcodes.cycles opcData)
            end
      end
  end.

End Step.

End CPU.

(** * Properties *)

(** ** Arithmetic of the JavaScript operators on small operands *)

Lemma ToInt32_small (x : Z) : 0 <= x < 2147483648 -> JS.ToInt32 x = x.
Proof.
  intros Hx. unfold JS.ToInt32.
  rewrite Z.mod_small by lia.
  destruct (Z.leb_spec 2147483648 x); lia.
Qed.

Lemma band_small (x y : Z) :
  0 <= x < 2147483648 -> 0 <= y < 2147483648 -> JS.band x y = Z.land x y.
Proof.
  intros Hx Hy. unfold JS.band. now rewrite !ToInt32_small.
Qed.

(** ** Reading the fields of an updated state *)

Lemma A_set_flags (s : CPU.t) (bz bn bh bc : bool) :
  CPU.A (CPU.set_c bc (CPU.set_h bh (CPU.set_n bn (CPU.set_z bz s)))) = CPU.A s.
Proof. reflexivity. Qed.

Lemma F_set_flags (s : CPU.t) (bz bn bh bc : bool) :
  CPU.F (CPU.set_c bc (CPU.set_h bh (CPU.set_n bn (CPU.set_z bz s))))
  = Flags.mk bz bn bh bc.
Proof. reflexivity. Qed.

(** What [add] leaves in the accumulator and in the flags, as equations. *)
Lemma add_A (byte : Z) (s : CPU.t) :
  CPU.A (CPU.add byte s) = Utils.uint8 (CPU.A s + byte).
Proof. reflexivity. Qed.

Lemma add_F (byte : Z) (s : CPU.t) :
  CPU.F (CPU.add byte s)
  = Flags.mk (Utils.uint8 (CPU.A s + byte) =? 0) false
             (Utils.addHalfCarriesByte (CPU.A s) byte 0)
             (Utils.addCarriesByte (CPU.A s) byte).
Proof. reflexivity. Qed.

(** ** Register pairs *)

(** C1, at the word 0x1234: [setBC], [setDE] and [setHL] store the LOW byte
    0x34 in both halves of the pair, because [word & 0xFF00 >> 8] is
    [word & 0xFF]; the pair then reads back as 0x3434, not as 0x1234, and
    [setR16] on BC, DE and HL does the same. *)
Theorem set_pair_stores_low_byte_twice (s : CPU.t) :
  CPU.B (CPU.setBC 4660 s) = 52 /\ CPU.C (CPU.setBC 4660 s) = 52 /\
  CPU.getBC (CPU.setBC 4660 s) = 13364 /\
  CPU.getDE (CPU.setDE 4660 s) = 13364 /\
  CPU.getHL (CPU.setHL 4660 s) = 13364 /\
  CPU.getR16 R16.BC (CPU.setR16 R16.BC 4660 s) = 13364 /\
  CPU.getR16 R16.DE (CPU.setR16 R16.DE 4660 s) = 13364 /\
  CPU.getR16 R16.HL (CPU.setR16 R16.HL 4660 s) = 13364.
Proof. repeat split; reflexivity. Qed.

(** The write to AF that the specification asks for: the accumulator takes
    the high byte of [v], the four flags take bits 7, 6, 5 and 4 of its low
    byte, and no other register changes. *)
Definition AF_written (v : Z) (s s' : CPU.t) : Prop :=
  CPU.A s' = Z.land (Z.shiftr v 8) 255 /\
  Flags.z (CPU.F s') = Z.testbit v 7 /\
  Flags.n (CPU.F s') = Z.testbit v 6 /\
  Flags.h (CPU.F s') = Z.testbit v 5 /\
  Flags.c (CPU.F s') = Z.testbit v 4 /\
  CPU.B s' = CPU.B s /\ CPU.C s' = CPU.C s /\
  CPU.D s' = CPU.D s /\ CPU.E s' = CPU.E s /\
  CPU.H s' = CPU.H s /\ CPU.L s' = CPU.L s /\
  CPU.SP s' = CPU.SP s /\ CPU.PC s' = CPU.PC s.

(** A memory of zeros, and the processor as the class initialises it. *)
Definition zeroMemory : MMU.t := MMU.mk (fun _ => 0).
Definition reset : CPU.t := CPU.new zeroMemory.

(** C2, refuted as stated: on the freshly initialised processor, writing
    0x12F0 to AF does not set the accumulator to 0x12 (nor any flag). *)
Lemma setR16_AF_not_written :
  ~ AF_written 4848 reset (CPU.setR16 R16.AF 4848 reset).
Proof.
  unfold AF_written. intros [HA _]. vm_compute in HA. discriminate HA.
Qed.

(** C2, amended: [setR16] on AF is not implemented.  For every [v] it logs
    the warning "set AF not implemented" and leaves the accumulator and the
    four flags as they were, so AF reads back unchanged; D, E, H, L, SP and
    PC are not modified either. *)
Theorem setR16_AF_unimplemented (v : Z) (s : CPU.t) :
  let s' := CPU.setR16 R16.AF v s in
  CPU.console s' = (CPU.console s ++ ["set AF not implemented"])%list /\
  CPU.A s' = CPU.A s /\ CPU.F s' = CPU.F s /\
  CPU.getAF s' = CPU.getAF s /\
  CPU.D s' = CPU.D s /\ CPU.E s' = CPU.E s /\
  CPU.H s' = CPU.H s /\ CPU.L s' = CPU.L s /\
  CPU.SP s' = CPU.SP s /\ CPU.PC s' = CPU.PC s.
Proof. repeat split. Qed.

(** ** 8-bit arithmetic and logic *)

(** C3, at accumulator 5 and operand 3 (no borrow anywhere): [sub] leaves
    the negative flag false, because its second assignment to [F.n] stores
    the half-borrow there; and for every operand the half-carry flag keeps
    its old value, since [sub] never assigns [F.h]. *)
Theorem sub_overwrites_negative_flag (s : CPU.t) :
  CPU.A (CPU.sub 3 (CPU.set_A 5 s)) = 2 /\
  Flags.n (CPU.F (CPU.sub 3 (CPU.set_A 5 s))) = false /\
  forall val, Flags.h (CPU.F (CPU.sub val s)) = Flags.h (CPU.F s).
Proof. repeat split. Qed.

(** C4, at accumulator 1 and operand 1: [xor] computes the bitwise OR, so
    the accumulator stays 1 (the exclusive or is 0), the zero flag is false
    and the half-carry flag is true. *)
Theorem xor_computes_or (s : CPU.t) :
  let s' := CPU.xor 1 (CPU.set_A 1 s) in
  CPU.A s' = 1 /\ Flags.z (CPU.F s') = false /\ Flags.h (CPU.F s') = true /\
  Z.lxor 1 1 = 0.
Proof. repeat split. Qed.

(** C5: for bytes [a] and [b], [add] leaves [(a+b) mod 256] in the
    accumulator, sets carry iff [a+b > 255], half-carry iff
    [(a&0xF)+(b&0xF) > 0xF], zero iff the wrapped result is 0, and clears
    the negative flag. *)
Theorem add_spec (a b : Z) (s : CPU.t) :
  0 <= a <= 255 -> 0 <= b <= 255 -> CPU.A s = a ->
  let s' := CPU.add b s in
  CPU.A s' = (a + b) mod 256 /\
  (Flags.c (CPU.F s') = true <-> a + b > 255) /\
  (Flags.h (CPU.F s') = true <-> Z.land a 15 + Z.land b 15 > 15) /\
  (Flags.z (CPU.F s') = true <-> (a + b) mod 256 = 0) /\
  Flags.n (CPU.F s') = false.
Proof.
  intros Ha Hb HA s'. subst s'.
  rewrite add_A, add_F, HA. cbn [Flags.z Flags.n Flags.h Flags.c].
  unfold Utils.uint8, Utils.addCarriesByte, Utils.addHalfCarriesByte.
  rewrite !band_small by lia.
  repeat split; try (rewrite Z.ltb_lt; lia); try (rewrite Z.eqb_eq; lia);
    try (intros H; apply Z.ltb_lt; lia); try (intros H; apply Z.eqb_eq; lia).
Qed.

(** The specification's scenario: 0x3C + 0x2E. *)
Lemma add_spec_witness :
  let s' := CPU.add 46 (CPU.set_A 60 reset) in
  CPU.A s' = (60 + 46) mod 256 /\
  (Flags.c (CPU.F s') = true <-> 60 + 46 > 255) /\
  (Flags.h (CPU.F s') = true <-> Z.land 60 15 + Z.land 46 15 > 15) /\
  (Flags.z (CPU.F s') = true <-> (60 + 46) mod 256 = 0) /\
  Flags.n (CPU.F s') = false.
Proof.
  apply (add_spec 60 46 (CPU.set_A 60 reset)); [lia | lia | reflexivity].
Defined.

(** ** Checking a property of bytes on all 256 of them *)

Definition bytes : list Z := map Z.of_nat (seq 0 256).

Lemma In_bytes (x : Z) : 0 <= x <= 255 -> In x bytes.
Proof.
  intros Hx. unfold bytes.
  replace x with (Z.of_nat (Z.to_nat x)) by lia.
  apply in_map, in_seq. lia.
Qed.

Lemma forall_bytes (P : Z -> bool) :
  forallb P bytes = true -> forall x, 0 <= x <= 255 -> P x = true.
Proof.
  intros HP x Hx. rewrite forallb_forall in HP. apply HP, In_bytes, Hx.
Qed.

(** ** Decimal adjust *)

(** Packed BCD: each nibble of the byte is a decimal digit. *)
Definition isBCD (x : Z) : bool :=
  (0 <=? x) && (x / 16 <? 10) && (x mod 16 <? 10).
(** The number a packed-BCD byte stands for, and the packed-BCD byte of a
    number below 100. *)
Definition fromBCD (x : Z) : Z := 10 * (x / 16) + x mod 16.
Definition toBCD (k : Z) : Z := 16 * (k / 10) + k mod 10.

Lemma isBCD_byte (x : Z) : isBCD x = true -> 0 <= x <= 255.
Proof.
  unfold isBCD. rewrite !andb_true_iff, Z.leb_le, !Z.ltb_lt.
  intros [[H0 Hhi] Hlo]. Z.div_mod_to_equations. lia.
Qed.

(** [daa] reads and writes the accumulator and the flags only. *)
Lemma daa_reads_A_F (s1 s2 : CPU.t) :
  CPU.A s1 = CPU.A s2 -> CPU.F s1 = CPU.F s2 ->
  CPU.A (CPU.daa s1) = CPU.A (CPU.daa s2) /\
  CPU.F (CPU.daa s1) = CPU.F (CPU.daa s2).
Proof.
  destruct s1 as [a1 ? ? ? ? ? ? f1 ? ? ? ? ? ? ? ? ?].
  destruct s2 as [a2 ? ? ? ? ? ? f2 ? ? ? ? ? ? ? ? ?].
  cbn [CPU.A CPU.F]. intros <- <-. unfold CPU.daa.
  destruct f1 as [fz fn fh fc]. cbn [CPU.A CPU.F Flags.z Flags.n Flags.h Flags.c].
  destruct fh, fn, fc; cbn [orb andb negb];
    try destruct (9 <? JS.band a1 15); try destruct (153 <? a1);
    split; reflexivity.
Qed.

Lemma daa_add_reads_A (y : Z) (s1 s2 : CPU.t) :
  CPU.A s1 = CPU.A s2 ->
  CPU.A (CPU.daa (CPU.add y s1)) = CPU.A (CPU.daa (CPU.add y s2)) /\
  CPU.F (CPU.daa (CPU.add y s1)) = CPU.F (CPU.daa (CPU.add y s2)).
Proof.
  intros HA. apply daa_reads_A_F.
  - now rewrite !add_A, HA.
  - now rewrite !add_F, HA.
Qed.

(** The claim on every pair of bytes, as a test that is run. *)
Lemma daa_after_add_all_pairs :
  forallb (fun x => forallb (fun y =>
    implb (isBCD x && isBCD y)
      ((CPU.A (CPU.daa (CPU.add y (CPU.set_A x reset)))
          =? toBCD ((fromBCD x + fromBCD y) mod 100))
       && Bool.eqb (Flags.c (CPU.F (CPU.daa (CPU.add y (CPU.set_A x reset)))))
                   (99 <? fromBCD x + fromBCD y))) bytes) bytes = true.
Proof. vm_compute. reflexivity. Qed.

(** C6: for packed-BCD bytes [x] and [y], [add] followed by [daa] leaves in
    the accumulator the packed-BCD byte of the two low decimal digits of
    the sum, and the carry flag is set exactly when the decimal sum exceeds
    99. *)
Theorem daa_after_add_bcd (x y : Z) (s : CPU.t) :
  isBCD x = true -> isBCD y = true -> CPU.A s = x ->
  let s' := CPU.daa (CPU.add y s) in
  CPU.A s' = toBCD ((fromBCD x + fromBCD y) mod 100) /\
  (Flags.c (CPU.F s') = true <-> fromBCD x + fromBCD y > 99).
Proof.
  intros Hx Hy HA.
  destruct (daa_add_reads_A y s (CPU.set_A x reset) HA) as [EA EF].
  pose proof (forall_bytes _ daa_after_add_all_pairs x (isBCD_byte x Hx)) as Hrow.
  cbv beta in Hrow.
  pose proof (forall_bytes _ Hrow y (isBCD_byte y Hy)) as Hxy.
  cbv beta in Hxy. rewrite Hx, Hy in Hxy.
  apply andb_true_iff in Hxy. destruct Hxy as [HAeq Hc].
  apply Z.eqb_eq in HAeq. apply Bool.eqb_prop in Hc.
  cbv zeta. rewrite EA, EF. split; [exact HAeq|].
  rewrite Hc, Z.ltb_lt. lia.
Qed.

(** 0x19 + 0x81: the decimal sum is 100, so the result is 0x00 with carry. *)
Lemma daa_after_add_bcd_witness :
  let s' := CPU.daa (CPU.add 129 (CPU.set_A 25 reset)) in
  CPU.A s' = toBCD ((fromBCD 25 + fromBCD 129) mod 100) /\
  (Flags.c (CPU.F s') = true <-> fromBCD 25 + fromBCD 129 > 99).
Proof.
  apply (daa_after_add_bcd 25 129 (CPU.set_A 25 reset)); reflexivity.
Defined.

(** ** 16-bit increment and decrement *)

(** Neither handler touches the flags, whichever register it is given. *)
Lemma setR16_F (reg16 : R16.t) (val : Z) (s : CPU.t) :
  CPU.F (CPU.setR16 reg16 val s) = CPU.F s.
Proof. destruct reg16; reflexivity. Qed.

(** C7, at SP = 0xFFFF: [inc_r16] stores [SP + 1] without wrapping it, so
    the stack pointer becomes 0x10000 and not 0x0000 ([dec_r16] does wrap:
    from 0 it gives 0xFFFF).  On BC = 0x00FF the increment gives 0x0000 and
    not 0x0100, the high byte being lost by [setBC].  The flags are left
    alone in every case. *)
Theorem inc_r16_SP_does_not_wrap (s : CPU.t) :
  CPU.SP (CPU.inc_r16 R16.SP (CPU.set_SP 65535 s)) = 65536 /\
  CPU.SP (CPU.dec_r16 R16.SP (CPU.set_SP 0 s)) = 65535 /\
  CPU.getBC (CPU.inc_r16 R16.BC (CPU.set_C 255 (CPU.set_B 0 s))) = 0 /\
  (forall r, CPU.F (CPU.inc_r16 r s) = CPU.F s) /\
  (forall r, CPU.F (CPU.dec_r16 r s) = CPU.F s).
Proof.
  split; [reflexivity|].
  split; [vm_compute; reflexivity|].
  split; [vm_compute; reflexivity|].
  split; intros r; apply setR16_F.
Qed.

(** ** Accumulator rotates *)

(** The two rotates read the accumulator only, and write it and the flags. *)
Lemma rlc_rrc_reads_A (s1 s2 : CPU.t) :
  CPU.A s1 = CPU.A s2 ->
  CPU.A (CPU.rrc_A (CPU.rlc_A s1)) = CPU.A (CPU.rrc_A (CPU.rlc_A s2)) /\
  CPU.F (CPU.rrc_A (CPU.rlc_A s1)) = CPU.F (CPU.rrc_A (CPU.rlc_A s2)).
Proof.
  destruct s1 as [a1 ? ? ? ? ? ? f1 ? ? ? ? ? ? ? ? ?].
  destruct s2 as [a2 ? ? ? ? ? ? f2 ? ? ? ? ? ? ? ? ?].
  cbn [CPU.A]. intros <-. unfold CPU.rlc_A. cbn [CPU.A].
  destruct (JS.band a1 128 =? 0); cbn [negb];
    unfold CPU.rrc_A; cbn [CPU.A CPU.set_A CPU.set_c CPU.set_z CPU.set_n
                            CPU.set_h CPU.set_F CPU.F];
    match goal with |- context [JS.band ?e 1 =? 0] =>
      destruct (JS.band e 1 =? 0) end;
    split; reflexivity.
Qed.

Lemma rlc_rrc_all_bytes :
  forallb (fun a =>
    (CPU.A (CPU.rrc_A (CPU.rlc_A (CPU.set_A a reset))) =? a)
    && Bool.eqb (Flags.c (CPU.F (CPU.rrc_A (CPU.rlc_A (CPU.set_A a reset)))))
                (Z.testbit a 7)) bytes = true.
Proof. vm_compute. reflexivity. Qed.

(** C8, refuted as stated: with accumulator 0x80 and the carry flag clear,
    [rlc_A] then [rrc_A] gives back the accumulator but leaves the carry
    flag set. *)
Lemma rlc_rrc_carry_not_restored :
  let s := CPU.set_A 128 reset in
  let s' := CPU.rrc_A (CPU.rlc_A s) in
  ~ (CPU.A s' = CPU.A s /\ Flags.c (CPU.F s') = Flags.c (CPU.F s)).
Proof.
  intros s s' [_ Hc]. vm_compute in Hc. discriminate Hc.
Qed.

(** C8, amended: for every accumulator value in [0,255] and every carry
    flag, [rlc_A] followed by [rrc_A] restores the accumulator, and leaves
    in the carry flag bit 7 of that value (whatever the carry flag was). *)
Theorem rlc_rrc_restores_A (s : CPU.t) :
  0 <= CPU.A s <= 255 ->
  let s' := CPU.rrc_A (CPU.rlc_A s) in
  CPU.A s' = CPU.A s /\ Flags.c (CPU.F s') = Z.testbit (CPU.A s) 7.
Proof.
  intros HA.
  destruct (rlc_rrc_reads_A s (CPU.set_A (CPU.A s) reset) eq_refl) as [EA EF].
  pose proof (forall_bytes _ rlc_rrc_all_bytes (CPU.A s) HA) as Hok.
  cbv beta in Hok. apply andb_true_iff in Hok. destruct Hok as [HAeq Hc].
  apply Z.eqb_eq in HAeq. apply Bool.eqb_prop in Hc.
  cbv zeta. rewrite EA, EF. split; assumption.
Qed.

(** Accumulator 0x80 with the carry flag set beforehand. *)
Lemma rlc_rrc_restores_A_witness :
  let s := CPU.set_c true (CPU.set_A 128 reset) in
  let s' := CPU.rrc_A (CPU.rlc_A s) in
  CPU.A s' = CPU.A s /\ Flags.c (CPU.F s') = Z.testbit (CPU.A s) 7.
Proof.
  apply (rlc_rrc_restores_A (CPU.set_c true (CPU.set_A 128 reset))).
  cbn. lia.
Defined.

(** C10, at accumulator 0x80: [rlc_A] shifts left without discarding the
    top bit and leaves 0x101 in the accumulator, [rl_A] leaves 0x100, and
    [inc_r16] on SP = 0xFFFF leaves 0x10000: each starts from registers
    within their widths and ends outside them. *)
Theorem rotate_left_exceeds_byte (s : CPU.t) :
  CPU.A (CPU.rlc_A (CPU.set_A 128 s)) = 257 /\
  CPU.A (CPU.rl_A (CPU.set_c false (CPU.set_A 128 s))) = 256 /\
  CPU.SP (CPU.inc_r16 R16.SP (CPU.set_SP 65535 s)) = 65536.
Proof. split; [|split]; vm_compute; reflexivity. Qed.

(** ** The dispatcher and the interrupt master enable *)

(** [step] never assigns [ime]: whatever the tables and whatever [execute]
    is, if the handlers leave [ime] alone (as a handler that only sets the
    pending flag does) then a step that returns has not changed it. *)
Lemma step_keeps_ime (utab ptab : Opcodes.table)
      (exec : Z -> bool -> CPU.t -> result CPU.t) :
  (forall opcode prefixed s0 s1,
      exec opcode prefixed s0 = Ok s1 -> CPU.ime s1 = CPU.ime s0) ->
  forall s s' k,
    CPU.step utab ptab exec s = Ok (s', k) -> CPU.ime s' = CPU.ime s.
Proof.
  intros Hexec s s' k. unfold CPU.step.
  destruct (MMU.rb (CPU.mmu (CPU.set_jumped false s))
                   (CPU.PC (CPU.set_jumped false s)) =? 203);
    match goal with |- context [exec ?o ?p ?s0] =>
      destruct (exec o p s0) as [s1|e] eqn:Hrun end;
    try discriminate;
    apply Hexec in Hrun; cbn [CPU.ime CPU.set_PC CPU.set_jumped] in Hrun;
    match goal with |- context [match ?d with Some _ => _ | None => _ end] =>
      destruct d as [opcData|] end;
    try discriminate;
    destruct (CPU.jumped s1);
    try destruct (Opcodes.cyclesIfNoJump opcData) as [alt|];
    try destruct (alt =? 0);
    intros Hret; inversion Hret; subst; exact Hrun.
Qed.

(** Modelled from the spec: the [execute] method, which [step] calls and
    the class does not define.  It covers the two instructions of the
    spec's scenario: "no-operation" (opcode 0x00) and "enable interrupts"
    (opcode 0xFB), which "sets a pending flag"; any other opcode is the
    spec's MalformedOpcode.  After either instruction the program counter
    stands on the next byte. *)
Definition execute (opcode : Z) (prefixed : bool) (this : CPU.t)
  : result CPU.t :=
  if prefixed then Throw "MalformedOpcode"
  else if opcode =? 0 then Ok (CPU.set_PC (CPU.PC this + 1) this)
  else if opcode =? 251 then
    Ok (CPU.set_PC (CPU.PC this + 1) (CPU.set_setIMENext true this))
  else Throw "MalformedOpcode".

(** Modelled from the spec: the entries of [unprefixedOpcodeTable]
    (./opcodes/opcodes, missing from the sources) for nop and ei: "a base
    cycle cost and, for instructions with conditional control transfer, an
    alternate cost"; both cost 4 cycles and have no alternate cost. *)
Definition unprefixedOpcodeTable : Opcodes.table :=
  fun opcode =>
    if (opcode =? 0) || (opcode =? 251) then Some (Opcodes.mk 4 None)
    else None.

Definition prefixedOpcodeTable : Opcodes.table := fun _ => None.



(** Two inputs for what is stated of [step] for every [execute] and every
    table: an [execute] that returns at once and leaves the state as it got
    it, and a table whose every entry has a base cost of 12 cycles and an
    alternate cost of 8. *)
Definition execute_nothing (opcode : Z) (prefixed : bool) (this : CPU.t)
  : result CPU.t :=
  Ok this.

Definition table_12_8 : Opcodes.table :=
  fun _ => Some (Opcodes.mk 12 (Some 8)).





(** * Further properties of the class *)

(** ** More arithmetic of the JavaScript operators *)

Lemma bor_small (x y : Z) :
  0 <= x < 2147483648 -> 0 <= y < 2147483648 -> JS.bor x y = Z.lor x y.
Proof.
  intros Hx Hy. unfold JS.bor. now rewrite !ToInt32_small.
Qed.

Lemma ToInt32_mod_256 (x : Z) : JS.ToInt32 x mod 256 = x mod 256.
Proof.
  unfold JS.ToInt32.
  destruct (2147483648 <=? x mod 4294967296);
    Z.div_mod_to_equations; lia.
Qed.

Lemma land_255 (x : Z) : Z.land x 255 = x mod 256.
Proof. apply (Z.land_ones x 8). lia. Qed.

(** [w & 0xFF] is [w mod 256], for every integer [w]. *)
Lemma band_255 (w : Z) : JS.band w 255 = w mod 256.
Proof.
  unfold JS.band. rewrite (ToInt32_small 255) by lia.
  rewrite land_255. apply ToInt32_mod_256.
Qed.

Lemma byte_mod (x : Z) : 0 <= x mod 256 <= 255.
Proof. pose proof (Z.mod_pos_bound x 256). lia. Qed.

(** ** The flag byte *)

Definition b2z (b : bool) : Z := if b then 1 else 0.

(** X1: [F.toUint8] packs the four flags at bits 7, 6, 5 and 4: the byte is
    128 z + 64 n + 32 h + 16 c, its low nibble is always zero, and each
    flag is read back from its bit, so the packing loses nothing. *)
Theorem toUint8_packing (f : Flags.t) :
  Flags.toUint8 f
  = 128 * b2z (Flags.z f) + 64 * b2z (Flags.n f)
    + 32 * b2z (Flags.h f) + 16 * b2z (Flags.c f) /\
  0 <= Flags.toUint8 f <= 240 /\
  Z.land (Flags.toUint8 f) 15 = 0 /\
  Z.testbit (Flags.toUint8 f) 7 = Flags.z f /\
  Z.testbit (Flags.toUint8 f) 6 = Flags.n f /\
  Z.testbit (Flags.toUint8 f) 5 = Flags.h f /\
  Z.testbit (Flags.toUint8 f) 4 = Flags.c f.
Proof.
  destruct f as [[|] [|] [|] [|]]; vm_compute; intuition discriminate.
Qed.

(** ** The register file *)

Definition R8_eqb (r r' : R8.t) : bool :=
  match r, r' with
  | R8.A, R8.A | R8.B, R8.B | R8.C, R8.C | R8.D, R8.D
  | R8.E, R8.E | R8.H, R8.H | R8.L, R8.L => true
  | _, _ => false
  end.

(** X2: [setR8] then [getR8] on the same register gives the value written,
    unchanged (no masking); on any other register it gives what that
    register held; the flags, SP and PC are not touched. *)
Theorem getR8_setR8 (r r' : R8.t) (val : Z) (s : CPU.t) :
  CPU.getR8 r' (CPU.setR8 r val s)
  = (if R8_eqb r r' then val else CPU.getR8 r' s) /\
  CPU.F (CPU.setR8 r val s) = CPU.F s /\
  CPU.SP (CPU.setR8 r val s) = CPU.SP s /\
  CPU.PC (CPU.setR8 r val s) = CPU.PC s.
Proof. destruct r, r'; repeat split. Qed.

(** ** Register pairs, read and written *)

Lemma forall_bytes2 (P : Z -> Z -> bool) :
  forallb (fun x => forallb (P x) bytes) bytes = true ->
  forall x y, 0 <= x <= 255 -> 0 <= y <= 255 -> P x y = true.
Proof.
  intros HP x y Hx Hy.
  apply (forall_bytes (P x)); [|exact Hy].
  apply (forall_bytes (fun x => forallb (P x) bytes) HP x Hx).
Qed.

Lemma pair_compose_all :
  forallb (fun hi => forallb (fun lo =>
    JS.bor (JS.shl hi 8) lo =? 256 * hi + lo) bytes) bytes = true.
Proof. vm_compute. reflexivity. Qed.

(** [(hi << 8) | lo] on two bytes. *)
Lemma pair_compose (hi lo : Z) :
  0 <= hi <= 255 -> 0 <= lo <= 255 -> JS.bor (JS.shl hi 8) lo = 256 * hi + lo.
Proof.
  intros Hhi Hlo. apply Z.eqb_eq.
  exact (forall_bytes2 _ pair_compose_all hi lo Hhi Hlo).
Qed.

(** The 8-bit registers hold bytes. *)
Definition bytes_ok (s : CPU.t) : Prop :=
  0 <= CPU.A s <= 255 /\ 0 <= CPU.B s <= 255 /\ 0 <= CPU.C s <= 255 /\
  0 <= CPU.D s <= 255 /\ 0 <= CPU.E s <= 255 /\ 0 <= CPU.H s <= 255 /\
  0 <= CPU.L s <= 255.

(** X3: when the 8-bit registers hold bytes, a pair reads as
    [256 * high + low] with the first register as the high byte, AF reads as
    [256 * A + F.toUint8()], and every pair read is within [0,65535]. *)
Theorem getR16_composes (s : CPU.t) :
  bytes_ok s ->
  CPU.getR16 R16.BC s = 256 * CPU.B s + CPU.C s /\
  CPU.getR16 R16.DE s = 256 * CPU.D s + CPU.E s /\
  CPU.getR16 R16.HL s = 256 * CPU.H s + CPU.L s /\
  CPU.getR16 R16.AF s = 256 * CPU.A s + Flags.toUint8 (CPU.F s) /\
  (forall r, r <> R16.SP -> 0 <= CPU.getR16 r s <= 65535).
Proof.
  intros (HA & HB & HC & HD & HE & HH & HL).
  assert (HF : 0 <= Flags.toUint8 (CPU.F s) <= 240)
    by (destruct (CPU.F s) as [[|] [|] [|] [|]]; vm_compute;
        intuition discriminate).
  cbv [CPU.getR16 CPU.getBC CPU.getDE CPU.getHL CPU.getAF].
  rewrite !pair_compose by (assumption || lia).
  split; [reflexivity|]. split; [reflexivity|]. split; [reflexivity|].
  split; [reflexivity|].
  intros r Hr; destruct r; try congruence; lia.
Qed.

(** A state with a different byte in every register and two flags set. *)
Definition sample_state : CPU.t :=
  CPU.mk 18 171 205 52 86 120 154 (Flags.mk true false true false) 65534 256
         false false false false false zeroMemory [].

(** BC reads 0xABCD, DE 0x3456, HL 0x789A and AF 0x12A0. *)
Lemma getR16_composes_witness :
  CPU.getR16 R16.BC sample_state
  = 256 * CPU.B sample_state + CPU.C sample_state /\
  CPU.getR16 R16.DE sample_state
  = 256 * CPU.D sample_state + CPU.E sample_state /\
  CPU.getR16 R16.HL sample_state
  = 256 * CPU.H sample_state + CPU.L sample_state /\
  CPU.getR16 R16.AF sample_state
  = 256 * CPU.A sample_state + Flags.toUint8 (CPU.F sample_state) /\
  (forall r, r <> R16.SP -> 0 <= CPU.getR16 r sample_state <= 65535).
Proof.
  apply (getR16_composes sample_state). unfold bytes_ok. cbn. lia.
Defined.

(** X4: whatever integer is written, [setBC], [setDE] and [setHL] leave
    bytes in both registers of the pair, the second one holding the word
    modulo 256; they change no other register, flag or pointer. *)
Theorem set_pair_stores_bytes (word : Z) (s : CPU.t) :
  (0 <= CPU.B (CPU.setBC word s) <= 255 /\
   CPU.C (CPU.setBC word s) = word mod 256) /\
  (0 <= CPU.D (CPU.setDE word s) <= 255 /\
   CPU.E (CPU.setDE word s) = word mod 256) /\
  (0 <= CPU.H (CPU.setHL word s) <= 255 /\
   CPU.L (CPU.setHL word s) = word mod 256) /\
  (CPU.A (CPU.setBC word s) = CPU.A s /\ CPU.F (CPU.setBC word s) = CPU.F s /\
   CPU.getDE (CPU.setBC word s) = CPU.getDE s /\
   CPU.getHL (CPU.setBC word s) = CPU.getHL s /\
   CPU.SP (CPU.setBC word s) = CPU.SP s /\ CPU.PC (CPU.setBC word s) = CPU.PC s) /\
  (CPU.A (CPU.setDE word s) = CPU.A s /\ CPU.F (CPU.setDE word s) = CPU.F s /\
   CPU.getBC (CPU.setDE word s) = CPU.getBC s /\
   CPU.getHL (CPU.setDE word s) = CPU.getHL s /\
   CPU.SP (CPU.setDE word s) = CPU.SP s /\ CPU.PC (CPU.setDE word s) = CPU.PC s) /\
  (CPU.A (CPU.setHL word s) = CPU.A s /\ CPU.F (CPU.setHL word s) = CPU.F s /\
   CPU.getBC (CPU.setHL word s) = CPU.getBC s /\
   CPU.getDE (CPU.setHL word s) = CPU.getDE s /\
   CPU.SP (CPU.setHL word s) = CPU.SP s /\ CPU.PC (CPU.setHL word s) = CPU.PC s).
Proof.
  assert (Hhi : forall w, 0 <= JS.band w (JS.shr 65280 8) <= 255).
  { intros w. change (JS.shr 65280 8) with 255. rewrite band_255. apply byte_mod. }
  pose proof (band_255 word) as Hlo.
  repeat split; try apply Hhi; try exact Hlo.
Qed.

(** ** 8-bit increment and decrement *)

Lemma land_15 (x : Z) : Z.land x 15 = x mod 16.
Proof. apply (Z.land_ones x 4). lia. Qed.

Lemma ToInt32_mod_16 (x : Z) : JS.ToInt32 x mod 16 = x mod 16.
Proof.
  unfold JS.ToInt32.
  destruct (2147483648 <=? x mod 4294967296);
    Z.div_mod_to_equations; lia.
Qed.

(** [w & 0xF] is [w mod 16], for every integer [w]. *)
Lemma band_15 (w : Z) : JS.band w 15 = w mod 16.
Proof.
  unfold JS.band. rewrite (ToInt32_small 15) by lia.
  rewrite land_15. apply ToInt32_mod_16.
Qed.

Lemma inc_r8_reg (r : R8.t) (s : CPU.t) :
  CPU.getR8 r (CPU.inc_r8 r s) = Utils.uint8 (CPU.getR8 r s + 1).
Proof. destruct r; reflexivity. Qed.

Lemma inc_r8_F (r : R8.t) (s : CPU.t) :
  CPU.F (CPU.inc_r8 r s)
  = Flags.mk (Utils.uint8 (CPU.getR8 r s + 1) =? 0) false
             (Utils.addHalfCarriesByte (CPU.getR8 r s) 1 0)
             (Flags.c (CPU.F s)).
Proof. destruct r; reflexivity. Qed.

Lemma dec_r8_reg (r : R8.t) (s : CPU.t) :
  CPU.getR8 r (CPU.dec_r8 r s) = Utils.uint8 (CPU.getR8 r s - 1).
Proof. destruct r; reflexivity. Qed.

Lemma dec_r8_F (r : R8.t) (s : CPU.t) :
  CPU.F (CPU.dec_r8 r s)
  = Flags.mk (Utils.uint8 (CPU.getR8 r s - 1) =? 0) true
             (Utils.subHalfCarriesByte (CPU.getR8 r s) 1 0)
             (Flags.c (CPU.F s)).
Proof. destruct r; reflexivity. Qed.

Lemma inc_r8_other (r r' : R8.t) (s : CPU.t) :
  r' <> r -> CPU.getR8 r' (CPU.inc_r8 r s) = CPU.getR8 r' s.
Proof. destruct r, r'; intros Hr; try congruence; reflexivity. Qed.

Lemma dec_r8_other (r r' : R8.t) (s : CPU.t) :
  r' <> r -> CPU.getR8 r' (CPU.dec_r8 r s) = CPU.getR8 r' s.
Proof. destruct r, r'; intros Hr; try congruence; reflexivity. Qed.

(** X5: [inc_r8] on a register holding the byte [v] leaves [(v+1) mod 256]
    there; the zero flag is set iff [v = 255], the half-carry flag iff the
    low nibble of [v] is 0xF, the negative flag is cleared, and the carry
    flag and the other registers keep their values. *)
Theorem inc_r8_spec (r : R8.t) (s : CPU.t) :
  0 <= CPU.getR8 r s <= 255 ->
  let v := CPU.getR8 r s in
  let s' := CPU.inc_r8 r s in
  CPU.getR8 r s' = (v + 1) mod 256 /\
  (Flags.z (CPU.F s') = true <-> v = 255) /\
  Flags.n (CPU.F s') = false /\
  (Flags.h (CPU.F s') = true <-> v mod 16 = 15) /\
  Flags.c (CPU.F s') = Flags.c (CPU.F s) /\
  (forall r', r' <> r -> CPU.getR8 r' s' = CPU.getR8 r' s).
Proof.
  intros Hv. cbv zeta. rewrite inc_r8_reg, inc_r8_F.
  cbn [Flags.z Flags.n Flags.h Flags.c].
  unfold Utils.uint8, Utils.addHalfCarriesByte. rewrite !band_15.
  rewrite Z.eqb_eq, Z.ltb_lt.
  repeat split; try (intros; Z.div_mod_to_equations; lia).
  intros r' Hr. now apply inc_r8_other.
Qed.

(** The specification's scenario: accumulator 0x0F. *)
Lemma inc_r8_spec_witness :
  let v := CPU.getR8 R8.A (CPU.set_A 15 reset) in
  let s' := CPU.inc_r8 R8.A (CPU.set_A 15 reset) in
  CPU.getR8 R8.A s' = (v + 1) mod 256 /\
  (Flags.z (CPU.F s') = true <-> v = 255) /\
  Flags.n (CPU.F s') = false /\
  (Flags.h (CPU.F s') = true <-> v mod 16 = 15) /\
  Flags.c (CPU.F s') = Flags.c (CPU.F (CPU.set_A 15 reset)) /\
  (forall r', r' <> R8.A -> CPU.getR8 r' s' = CPU.getR8 r' (CPU.set_A 15 reset)).
Proof.
  apply (inc_r8_spec R8.A (CPU.set_A 15 reset)). cbn. lia.
Defined.

(** X6: [dec_r8] on a register holding the byte [v] leaves [(v-1) mod 256]
    there; the zero flag is set iff [v = 1], the half-carry flag iff the
    low nibble of [v] is 0, the negative flag is set, and the carry flag
    and the other registers keep their values. *)
Theorem dec_r8_spec (r : R8.t) (s : CPU.t) :
  0 <= CPU.getR8 r s <= 255 ->
  let v := CPU.getR8 r s in
  let s' := CPU.dec_r8 r s in
  CPU.getR8 r s' = (v - 1) mod 256 /\
  (Flags.z (CPU.F s') = true <-> v = 1) /\
  Flags.n (CPU.F s') = true /\
  (Flags.h (CPU.F s') = true <-> v mod 16 = 0) /\
  Flags.c (CPU.F s') = Flags.c (CPU.F s) /\
  (forall r', r' <> r -> CPU.getR8 r' s' = CPU.getR8 r' s).
Proof.
  intros Hv. cbv zeta. rewrite dec_r8_reg, dec_r8_F.
  cbn [Flags.z Flags.n Flags.h Flags.c].
  unfold Utils.uint8, Utils.subHalfCarriesByte. rewrite !band_15.
  rewrite Z.eqb_eq, Z.ltb_lt.
  repeat split; try (intros; Z.div_mod_to_equations; lia).
  intros r' Hr. now apply dec_r8_other.
Qed.

Lemma dec_r8_spec_witness :
  let v := CPU.getR8 R8.B reset in
  let s' := CPU.dec_r8 R8.B reset in
  CPU.getR8 R8.B s' = (v - 1) mod 256 /\
  (Flags.z (CPU.F s') = true <-> v = 1) /\
  Flags.n (CPU.F s') = true /\
  (Flags.h (CPU.F s') = true <-> v mod 16 = 0) /\
  Flags.c (CPU.F s') = Flags.c (CPU.F reset) /\
  (forall r', r' <> R8.B -> CPU.getR8 r' s' = CPU.getR8 r' reset).
Proof.
  apply (dec_r8_spec R8.B reset). cbn. lia.
Defined.

(** X7: on a register holding a byte, [inc_r8] followed by [dec_r8], and
    [dec_r8] followed by [inc_r8], give the register its value back, also
    across the wrap at 0xFF and 0x00. *)
Theorem inc_dec_r8_roundtrip (r : R8.t) (s : CPU.t) :
  0 <= CPU.getR8 r s <= 255 ->
  CPU.getR8 r (CPU.dec_r8 r (CPU.inc_r8 r s)) = CPU.getR8 r s /\
  CPU.getR8 r (CPU.inc_r8 r (CPU.dec_r8 r s)) = CPU.getR8 r s.
Proof.
  intros Hv. rewrite dec_r8_reg, inc_r8_reg, inc_r8_reg, dec_r8_reg.
  unfold Utils.uint8. split; Z.div_mod_to_equations; lia.
Qed.

Lemma inc_dec_r8_roundtrip_witness :
  CPU.getR8 R8.L (CPU.dec_r8 R8.L (CPU.inc_r8 R8.L (CPU.set_L 255 reset)))
  = CPU.getR8 R8.L (CPU.set_L 255 reset) /\
  CPU.getR8 R8.L (CPU.inc_r8 R8.L (CPU.dec_r8 R8.L (CPU.set_L 255 reset)))
  = CPU.getR8 R8.L (CPU.set_L 255 reset).
Proof.
  apply (inc_dec_r8_roundtrip R8.L (CPU.set_L 255 reset)). cbn. lia.
Defined.

(** ** Add and subtract with carry, compare *)

Lemma adc_A (val : Z) (s : CPU.t) :
  CPU.A (CPU.adc val s) = Utils.uint8 (CPU.A s + val + b2z (Flags.c (CPU.F s))).
Proof. reflexivity. Qed.

Lemma adc_F (val : Z) (s : CPU.t) :
  CPU.F (CPU.adc val s)
  = Flags.mk (Utils.uint8 (CPU.A s + val + b2z (Flags.c (CPU.F s))) =? 0) false
      (Utils.addHalfCarriesByte (CPU.A s) val (b2z (Flags.c (CPU.F s))))
      (Utils.addCarriesByte (CPU.A s) (val + b2z (Flags.c (CPU.F s)))).
Proof. reflexivity. Qed.

Lemma sbc_A (val : Z) (s : CPU.t) :
  CPU.A (CPU.sbc val s) = Utils.uint8 (CPU.A s - val - b2z (Flags.c (CPU.F s))).
Proof. reflexivity. Qed.

Lemma sbc_F (val : Z) (s : CPU.t) :
  CPU.F (CPU.sbc val s)
  = Flags.mk (Utils.uint8 (CPU.A s - val - b2z (Flags.c (CPU.F s))) =? 0) true
      (Utils.subHalfCarriesByte (CPU.A s) val (b2z (Flags.c (CPU.F s))))
      (CPU.A s - val - b2z (Flags.c (CPU.F s)) <? 0).
Proof. reflexivity. Qed.

Lemma cp_F (val : Z) (s : CPU.t) :
  CPU.F (CPU.cp val s)
  = Flags.mk (CPU.A s - val =? 0) true
      (Utils.subHalfCarriesByte (CPU.A s) val 0) (CPU.A s - val <? 0).
Proof. reflexivity. Qed.

(** X8: [adc] adds the operand and the carry flag (as 0 or 1) to the
    accumulator modulo 256; carry is set iff the sum with the carry-in
    exceeds 255, half-carry iff the low nibbles and the carry-in sum to
    more than 0xF, zero iff the wrapped result is 0, and negative is
    cleared. *)
Theorem adc_spec (val : Z) (s : CPU.t) :
  let a := CPU.A s in
  let cin := b2z (Flags.c (CPU.F s)) in
  let s' := CPU.adc val s in
  CPU.A s' = (a + val + cin) mod 256 /\
  (Flags.c (CPU.F s') = true <-> a + val + cin > 255) /\
  (Flags.h (CPU.F s') = true <-> a mod 16 + val mod 16 + cin > 15) /\
  (Flags.z (CPU.F s') = true <-> (a + val + cin) mod 256 = 0) /\
  Flags.n (CPU.F s') = false.
Proof.
  cbv zeta. rewrite adc_A, adc_F. cbn [Flags.z Flags.n Flags.h Flags.c].
  unfold Utils.uint8, Utils.addCarriesByte, Utils.addHalfCarriesByte.
  rewrite !band_15, Z.eqb_eq, !Z.ltb_lt.
  repeat split; intros; lia.
Qed.

(** X9: [sbc] subtracts the operand and the carry flag (as 0 or 1) from the
    accumulator modulo 256; carry is set iff the accumulator is less than
    operand plus carry-in, half-carry iff the same holds of the low
    nibbles, zero iff the wrapped result is 0, and negative is set. *)
Theorem sbc_spec (val : Z) (s : CPU.t) :
  let a := CPU.A s in
  let cin := b2z (Flags.c (CPU.F s)) in
  let s' := CPU.sbc val s in
  CPU.A s' = (a - val - cin) mod 256 /\
  (Flags.c (CPU.F s') = true <-> a < val + cin) /\
  (Flags.h (CPU.F s') = true <-> a mod 16 < val mod 16 + cin) /\
  (Flags.z (CPU.F s') = true <-> (a - val - cin) mod 256 = 0) /\
  Flags.n (CPU.F s') = true.
Proof.
  cbv zeta. rewrite sbc_A, sbc_F. cbn [Flags.z Flags.n Flags.h Flags.c].
  unfold Utils.uint8, Utils.subHalfCarriesByte.
  rewrite !band_15, Z.eqb_eq, !Z.ltb_lt.
  repeat split; intros; lia.
Qed.

(** X10: [cp] leaves the accumulator (and every register) alone and sets
    zero iff the accumulator equals the operand, carry iff it is less than
    the operand, half-carry iff its low nibble is less than the operand's,
    and negative always. *)
Theorem cp_spec (val : Z) (s : CPU.t) :
  let s' := CPU.cp val s in
  CPU.A s' = CPU.A s /\
  (forall r, CPU.getR8 r s' = CPU.getR8 r s) /\
  (Flags.z (CPU.F s') = true <-> CPU.A s = val) /\
  (Flags.c (CPU.F s') = true <-> CPU.A s < val) /\
  (Flags.h (CPU.F s') = true <-> CPU.A s mod 16 < val mod 16) /\
  Flags.n (CPU.F s') = true.
Proof.
  cbv zeta. rewrite cp_F. cbn [Flags.z Flags.n Flags.h Flags.c].
  unfold Utils.subHalfCarriesByte.
  rewrite !band_15, Z.eqb_eq, !Z.ltb_lt.
  split; [reflexivity|]. split; [intros r; destruct r; reflexivity|].
  repeat split; intros; lia.
Qed.

(** X11: on bytes, [cp] sets exactly the flags that [sbc] sets when the
    carry flag is clear beforehand: it is that subtraction with the result
    thrown away. *)
Theorem cp_flags_are_sbc_flags (val : Z) (s : CPU.t) :
  0 <= CPU.A s <= 255 -> 0 <= val <= 255 ->
  CPU.F (CPU.cp val s) = CPU.F (CPU.sbc val (CPU.set_c false s)).
Proof.
  intros Ha Hv. rewrite cp_F, sbc_F.
  change (Flags.c (CPU.F (CPU.set_c false s))) with false.
  change (CPU.A (CPU.set_c false s)) with (CPU.A s).
  cbn [b2z]. rewrite !Z.sub_0_r. f_equal.
  unfold Utils.uint8.
  destruct (Z.eqb_spec (CPU.A s - val) 0) as [E|E];
    destruct (Z.eqb_spec ((CPU.A s - val) mod 256) 0) as [E'|E'];
    try reflexivity; exfalso; revert E E'; Z.div_mod_to_equations; lia.
Qed.

Lemma cp_flags_are_sbc_flags_witness :
  CPU.F (CPU.cp 60 (CPU.set_A 47 reset))
  = CPU.F (CPU.sbc 60 (CPU.set_c false (CPU.set_A 47 reset))).
Proof.
  apply (cp_flags_are_sbc_flags 60 (CPU.set_A 47 reset)); cbn; lia.
Defined.

(** ** Bitwise operations on the accumulator *)

Lemma and_A (val : Z) (s : CPU.t) :
  CPU.A (CPU.and val s) = JS.band (CPU.A s) val.
Proof. reflexivity. Qed.

Lemma and_F (val : Z) (s : CPU.t) :
  CPU.F (CPU.and val s) = Flags.mk (JS.band (CPU.A s) val =? 0) false true false.
Proof. reflexivity. Qed.

Lemma or_A (val : Z) (s : CPU.t) :
  CPU.A (CPU.or val s) = JS.bor (CPU.A s) val.
Proof. reflexivity. Qed.

Lemma or_F (val : Z) (s : CPU.t) :
  CPU.F (CPU.or val s) = Flags.mk (JS.bor (CPU.A s) val =? 0) false false false.
Proof. reflexivity. Qed.

Lemma cpl_A (s : CPU.t) : CPU.A (CPU.cpl s) = JS.bxor (CPU.A s) 255.
Proof. reflexivity. Qed.

Lemma cpl_F (s : CPU.t) :
  CPU.F (CPU.cpl s)
  = Flags.mk (Flags.z (CPU.F s)) true true (Flags.c (CPU.F s)).
Proof. reflexivity. Qed.

Lemma band_bytes_all :
  forallb (fun a => forallb (fun v =>
    (JS.band a v =? Z.land a v) && (0 <=? JS.band a v)
    && (JS.band a v <=? a) && (JS.band a v <=? v)) bytes) bytes = true.
Proof. vm_compute. reflexivity. Qed.

Lemma bor_bytes_all :
  forallb (fun a => forallb (fun v =>
    (JS.bor a v =? Z.lor a v) && (JS.bor a v <=? 255)
    && (a <=? JS.bor a v) && (v <=? JS.bor a v)) bytes) bytes = true.
Proof. vm_compute. reflexivity. Qed.

Lemma cpl_bytes_all :
  forallb (fun a =>
    (JS.bxor a 255 =? 255 - a) && (JS.bxor (JS.bxor a 255) 255 =? a)) bytes
  = true.
Proof. vm_compute. reflexivity. Qed.

(** X12: on bytes, [and] leaves the bitwise AND in the accumulator, a byte
    no larger than either operand; zero is set iff the result is 0,
    half-carry is set, negative and carry are cleared. *)
Theorem and_spec (val : Z) (s : CPU.t) :
  0 <= CPU.A s <= 255 -> 0 <= val <= 255 ->
  let s' := CPU.and val s in
  CPU.A s' = Z.land (CPU.A s) val /\
  0 <= CPU.A s' /\ CPU.A s' <= CPU.A s /\ CPU.A s' <= val /\
  (Flags.z (CPU.F s') = true <-> CPU.A s' = 0) /\
  Flags.n (CPU.F s') = false /\ Flags.h (CPU.F s') = true /\
  Flags.c (CPU.F s') = false.
Proof.
  intros Ha Hv. cbv zeta. rewrite and_A, and_F.
  cbn [Flags.z Flags.n Flags.h Flags.c].
  pose proof (forall_bytes2 _ band_bytes_all (CPU.A s) val Ha Hv) as Hok.
  cbv beta in Hok. rewrite !andb_true_iff in Hok.
  destruct Hok as [[[H1 H2] H3] H4].
  apply Z.eqb_eq in H1. apply Z.leb_le in H2, H3, H4.
  rewrite Z.eqb_eq. repeat split; try assumption; intros E; exact E.
Qed.

Lemma and_spec_witness :
  let s' := CPU.and 15 (CPU.set_A 60 reset) in
  CPU.A s' = Z.land (CPU.A (CPU.set_A 60 reset)) 15 /\
  0 <= CPU.A s' /\ CPU.A s' <= CPU.A (CPU.set_A 60 reset) /\ CPU.A s' <= 15 /\
  (Flags.z (CPU.F s') = true <-> CPU.A s' = 0) /\
  Flags.n (CPU.F s') = false /\ Flags.h (CPU.F s') = true /\
  Flags.c (CPU.F s') = false.
Proof.
  apply (and_spec 15 (CPU.set_A 60 reset)); cbn; lia.
Defined.

(** X13: on bytes, [or] leaves the bitwise OR in the accumulator, a byte no
    smaller than either operand; zero is set iff the result is 0 (that is,
    iff both operands are 0), and negative, half-carry and carry are
    cleared. *)
Theorem or_spec (val : Z) (s : CPU.t) :
  0 <= CPU.A s <= 255 -> 0 <= val <= 255 ->
  let s' := CPU.or val s in
  CPU.A s' = Z.lor (CPU.A s) val /\
  CPU.A s <= CPU.A s' /\ val <= CPU.A s' /\ CPU.A s' <= 255 /\
  (Flags.z (CPU.F s') = true <-> CPU.A s = 0 /\ val = 0) /\
  Flags.n (CPU.F s') = false /\ Flags.h (CPU.F s') = false /\
  Flags.c (CPU.F s') = false.
Proof.
  intros Ha Hv. cbv zeta. rewrite or_A, or_F.
  cbn [Flags.z Flags.n Flags.h Flags.c].
  pose proof (forall_bytes2 _ bor_bytes_all (CPU.A s) val Ha Hv) as Hok.
  cbv beta in Hok. rewrite !andb_true_iff in Hok.
  destruct Hok as [[[H1 H2] H3] H4].
  apply Z.eqb_eq in H1. apply Z.leb_le in H2, H3, H4.
  rewrite Z.eqb_eq. repeat split; try assumption; try lia.
  intros [Ea Ev]. rewrite H1, Ea, Ev. reflexivity.
Qed.

Lemma or_spec_witness :
  let s' := CPU.or 3 (CPU.set_A 60 reset) in
  CPU.A s' = Z.lor (CPU.A (CPU.set_A 60 reset)) 3 /\
  CPU.A (CPU.set_A 60 reset) <= CPU.A s' /\ 3 <= CPU.A s' /\ CPU.A s' <= 255 /\
  (Flags.z (CPU.F s') = true <-> CPU.A (CPU.set_A 60 reset) = 0 /\ 3 = 0) /\
  Flags.n (CPU.F s') = false /\ Flags.h (CPU.F s') = false /\
  Flags.c (CPU.F s') = false.
Proof.
  apply (or_spec 3 (CPU.set_A 60 reset)); cbn; lia.
Defined.

(** X14: on a byte [a], [cpl] leaves [255 - a] in the accumulator, sets
    negative and half-carry and keeps zero and carry; applied twice it
    gives the accumulator back. *)
Theorem cpl_spec (s : CPU.t) :
  0 <= CPU.A s <= 255 ->
  CPU.A (CPU.cpl s) = 255 - CPU.A s /\
  CPU.A (CPU.cpl (CPU.cpl s)) = CPU.A s /\
  Flags.n (CPU.F (CPU.cpl s)) = true /\ Flags.h (CPU.F (CPU.cpl s)) = true /\
  Flags.z (CPU.F (CPU.cpl s)) = Flags.z (CPU.F s) /\
  Flags.c (CPU.F (CPU.cpl s)) = Flags.c (CPU.F s).
Proof.
  intros Ha. rewrite !cpl_A, !cpl_F. cbn [Flags.z Flags.n Flags.h Flags.c].
  pose proof (forall_bytes _ cpl_bytes_all (CPU.A s) Ha) as Hok.
  cbv beta in Hok. rewrite andb_true_iff, !Z.eqb_eq in Hok.
  destruct Hok as [H1 H2]. repeat split; assumption.
Qed.

Lemma cpl_spec_witness :
  CPU.A (CPU.cpl (CPU.set_A 53 reset)) = 255 - CPU.A (CPU.set_A 53 reset) /\
  CPU.A (CPU.cpl (CPU.cpl (CPU.set_A 53 reset))) = CPU.A (CPU.set_A 53 reset) /\
  Flags.n (CPU.F (CPU.cpl (CPU.set_A 53 reset))) = true /\
  Flags.h (CPU.F (CPU.cpl (CPU.set_A 53 reset))) = true /\
  Flags.z (CPU.F (CPU.cpl (CPU.set_A 53 reset)))
  = Flags.z (CPU.F (CPU.set_A 53 reset)) /\
  Flags.c (CPU.F (CPU.cpl (CPU.set_A 53 reset)))
  = Flags.c (CPU.F (CPU.set_A 53 reset)).
Proof.
  apply (cpl_spec (CPU.set_A 53 reset)). cbn. lia.
Defined.

(** ** Rotates to the right, and rotates through the carry *)

Lemma rrc_A_A (s : CPU.t) :
  CPU.A (CPU.rrc_A s)
  = if JS.band (CPU.A s) 1 =? 0 then JS.shr (CPU.A s) 1
    else JS.bor (JS.shr (CPU.A s) 1) 128.
Proof. unfold CPU.rrc_A. destruct (JS.band (CPU.A s) 1 =? 0); reflexivity. Qed.

Lemma rrc_A_F (s : CPU.t) :
  CPU.F (CPU.rrc_A s)
  = Flags.mk false false false (negb (JS.band (CPU.A s) 1 =? 0)).
Proof. unfold CPU.rrc_A. destruct (JS.band (CPU.A s) 1 =? 0); reflexivity. Qed.

Lemma rr_A_A (s : CPU.t) :
  CPU.A (CPU.rr_A s)
  = JS.bor (JS.shr (CPU.A s) 1) (JS.shl (b2z (Flags.c (CPU.F s))) 7).
Proof. reflexivity. Qed.

Lemma rr_A_F (s : CPU.t) :
  CPU.F (CPU.rr_A s)
  = Flags.mk false false false (negb (JS.band (CPU.A s) 1 =? 0)).
Proof. reflexivity. Qed.

Lemma rl_A_A (s : CPU.t) :
  CPU.A (CPU.rl_A s) = JS.bor (JS.shl (CPU.A s) 1) (b2z (Flags.c (CPU.F s))).
Proof. reflexivity. Qed.

Lemma rl_A_F (s : CPU.t) :
  CPU.F (CPU.rl_A s)
  = Flags.mk false false false (negb (JS.band (CPU.A s) 128 =? 0)).
Proof. reflexivity. Qed.

Lemma rrc_bytes_all :
  forallb (fun a =>
    ((if JS.band a 1 =? 0 then JS.shr a 1 else JS.bor (JS.shr a 1) 128)
       =? a / 2 + 128 * (a mod 2))
    && Bool.eqb (negb (JS.band a 1 =? 0)) (Z.odd a)) bytes = true.
Proof. vm_compute. reflexivity. Qed.

Lemma rr_bytes_all :
  forallb (fun cin => forallb (fun a =>
    (JS.bor (JS.shr a 1) (JS.shl (b2z cin) 7) =? a / 2 + 128 * b2z cin)
    && Bool.eqb (negb (JS.band a 1 =? 0)) (Z.odd a)) bytes) [true; false]
  = true.
Proof. vm_compute. reflexivity. Qed.

Lemma rl_rr_bytes_all :
  forallb (fun cin => forallb (fun a =>
    (JS.bor (JS.shr (JS.bor (JS.shl a 1) (b2z cin)) 1)
            (JS.shl (b2z (negb (JS.band a 128 =? 0))) 7) =? a)
    && Bool.eqb (negb (JS.band (JS.bor (JS.shl a 1) (b2z cin)) 1 =? 0)) cin)
    bytes) [true; false] = true.
Proof. vm_compute. reflexivity. Qed.

Lemma forall_bool (P : bool -> bool) :
  forallb P [true; false] = true -> forall b, P b = true.
Proof.
  cbn. rewrite !andb_true_iff. intros (Ht & Hf & _) b. now destruct b.
Qed.

(** X15: on a byte [a], [rrc_A] rotates the accumulator right by one bit:
    it leaves [a / 2 + 128 * (a mod 2)], again a byte, stores the old bit 0
    in the carry flag and clears zero, negative and half-carry. *)
Theorem rrc_A_spec (s : CPU.t) :
  0 <= CPU.A s <= 255 ->
  let a := CPU.A s in
  let s' := CPU.rrc_A s in
  CPU.A s' = a / 2 + 128 * (a mod 2) /\ 0 <= CPU.A s' <= 255 /\
  CPU.F s' = Flags.mk false false false (Z.odd a).
Proof.
  intros Ha. cbv zeta. rewrite rrc_A_A, rrc_A_F.
  pose proof (forall_bytes _ rrc_bytes_all (CPU.A s) Ha) as Hok.
  cbv beta in Hok. rewrite andb_true_iff, Z.eqb_eq in Hok.
  destruct Hok as [H1 H2]. apply Bool.eqb_prop in H2.
  rewrite H1, H2. repeat split; Z.div_mod_to_equations; lia.
Qed.

Lemma rrc_A_spec_witness :
  let a := CPU.A (CPU.set_A 1 reset) in
  let s' := CPU.rrc_A (CPU.set_A 1 reset) in
  CPU.A s' = a / 2 + 128 * (a mod 2) /\ 0 <= CPU.A s' <= 255 /\
  CPU.F s' = Flags.mk false false false (Z.odd a).
Proof.
  apply (rrc_A_spec (CPU.set_A 1 reset)). cbn. lia.
Defined.

(** X16: on a byte [a], [rr_A] rotates right through the carry: it leaves
    [a / 2] with the old carry flag as bit 7, again a byte, stores the old
    bit 0 in the carry flag and clears zero, negative and half-carry. *)
Theorem rr_A_spec (s : CPU.t) :
  0 <= CPU.A s <= 255 ->
  let a := CPU.A s in
  let s' := CPU.rr_A s in
  CPU.A s' = a / 2 + 128 * b2z (Flags.c (CPU.F s)) /\ 0 <= CPU.A s' <= 255 /\
  CPU.F s' = Flags.mk false false false (Z.odd a).
Proof.
  intros Ha. cbv zeta. rewrite rr_A_A, rr_A_F.
  pose proof (forall_bytes _ (forall_bool _ rr_bytes_all (Flags.c (CPU.F s)))
                           (CPU.A s) Ha) as Hok.
  cbv beta in Hok. rewrite andb_true_iff, Z.eqb_eq in Hok.
  destruct Hok as [H1 H2]. apply Bool.eqb_prop in H2.
  rewrite H1, H2.
  repeat split; destruct (Flags.c (CPU.F s)); cbn [b2z];
    Z.div_mod_to_equations; lia.
Qed.

Lemma rr_A_spec_witness :
  let a := CPU.A (CPU.set_c true (CPU.set_A 1 reset)) in
  let s' := CPU.rr_A (CPU.set_c true (CPU.set_A 1 reset)) in
  CPU.A s' = a / 2 + 128 * b2z (Flags.c (CPU.F (CPU.set_c true (CPU.set_A 1 reset))))
  /\ 0 <= CPU.A s' <= 255 /\
  CPU.F s' = Flags.mk false false false (Z.odd a).
Proof.
  apply (rr_A_spec (CPU.set_c true (CPU.set_A 1 reset))). cbn. lia.
Defined.

(** X17: on a byte, [rl_A] followed by [rr_A] restores both the accumulator
    and the carry flag, whatever the carry flag was: the two rotates
    through the carry undo each other in this order. *)
Theorem rl_rr_roundtrip (s : CPU.t) :
  0 <= CPU.A s <= 255 ->
  CPU.A (CPU.rr_A (CPU.rl_A s)) = CPU.A s /\
  Flags.c (CPU.F (CPU.rr_A (CPU.rl_A s))) = Flags.c (CPU.F s).
Proof.
  intros Ha. rewrite rr_A_A, rr_A_F, rl_A_A, rl_A_F.
  cbn [Flags.z Flags.n Flags.h Flags.c].
  pose proof (forall_bytes _ (forall_bool _ rl_rr_bytes_all (Flags.c (CPU.F s)))
                           (CPU.A s) Ha) as Hok.
  cbv beta in Hok. rewrite andb_true_iff, Z.eqb_eq in Hok.
  destruct Hok as [H1 H2]. apply Bool.eqb_prop in H2.
  split; assumption.
Qed.

Lemma rl_rr_roundtrip_witness :
  CPU.A (CPU.rr_A (CPU.rl_A (CPU.set_A 200 reset))) = CPU.A (CPU.set_A 200 reset) /\
  Flags.c (CPU.F (CPU.rr_A (CPU.rl_A (CPU.set_A 200 reset))))
  = Flags.c (CPU.F (CPU.set_A 200 reset)).
Proof.
  apply (rl_rr_roundtrip (CPU.set_A 200 reset)). cbn. lia.
Defined.

(** ** Decimal adjust after add-with-carry and subtract-with-carry *)

(** The packed-BCD bytes: 0x00 .. 0x99 with both nibbles at most 9. *)
Definition bcdBytes : list Z := filter isBCD bytes.

Lemma In_bcdBytes (x : Z) : isBCD x = true -> In x bcdBytes.
Proof.
  intros Hx. apply filter_In. split; [|exact Hx].
  apply In_bytes, isBCD_byte, Hx.
Qed.

Lemma forall_bcd2 (P : Z -> Z -> bool) :
  forallb (fun x => forallb (P x) bcdBytes) bcdBytes = true ->
  forall x y, isBCD x = true -> isBCD y = true -> P x y = true.
Proof.
  intros HP x y Hx Hy. rewrite forallb_forall in HP.
  specialize (HP x (In_bcdBytes x Hx)). rewrite forallb_forall in HP.
  exact (HP y (In_bcdBytes y Hy)).
Qed.

(** The accumulator [x] with carry flag [cin], everything else as after
    initialisation. *)
Definition acc (x : Z) (cin : bool) : CPU.t := CPU.set_c cin (CPU.set_A x reset).

Lemma daa_adc_reads (y : Z) (s : CPU.t) :
  CPU.A (CPU.daa (CPU.adc y s))
  = CPU.A (CPU.daa (CPU.adc y (acc (CPU.A s) (Flags.c (CPU.F s))))) /\
  CPU.F (CPU.daa (CPU.adc y s))
  = CPU.F (CPU.daa (CPU.adc y (acc (CPU.A s) (Flags.c (CPU.F s))))).
Proof.
  apply daa_reads_A_F; [rewrite !adc_A | rewrite !adc_F]; reflexivity.
Qed.

Lemma daa_sbc_reads (y : Z) (s : CPU.t) :
  CPU.A (CPU.daa (CPU.sbc y s))
  = CPU.A (CPU.daa (CPU.sbc y (acc (CPU.A s) (Flags.c (CPU.F s))))) /\
  CPU.F (CPU.daa (CPU.sbc y s))
  = CPU.F (CPU.daa (CPU.sbc y (acc (CPU.A s) (Flags.c (CPU.F s))))).
Proof.
  apply daa_reads_A_F; [rewrite !sbc_A | rewrite !sbc_F]; reflexivity.
Qed.

Lemma daa_after_adc_all :
  forallb (fun cin => forallb (fun x => forallb (fun y =>
    (CPU.A (CPU.daa (CPU.adc y (acc x cin)))
       =? toBCD ((fromBCD x + fromBCD y + b2z cin) mod 100))
    && Bool.eqb (Flags.c (CPU.F (CPU.daa (CPU.adc y (acc x cin)))))
                (99 <? fromBCD x + fromBCD y + b2z cin)
    && Bool.eqb (Flags.z (CPU.F (CPU.daa (CPU.adc y (acc x cin)))))
                ((fromBCD x + fromBCD y + b2z cin) mod 100 =? 0)
    && negb (Flags.h (CPU.F (CPU.daa (CPU.adc y (acc x cin)))))
    && negb (Flags.n (CPU.F (CPU.daa (CPU.adc y (acc x cin))))))
    bcdBytes) bcdBytes) [true; false] = true.
Proof. vm_compute. reflexivity. Qed.

Lemma daa_after_sbc_all :
  forallb (fun cin => forallb (fun x => forallb (fun y =>
    (CPU.A (CPU.daa (CPU.sbc y (acc x cin)))
       =? toBCD ((fromBCD x - fromBCD y - b2z cin) mod 100))
    && Bool.eqb (Flags.c (CPU.F (CPU.daa (CPU.sbc y (acc x cin)))))
                (fromBCD x <? fromBCD y + b2z cin)
    && Bool.eqb (Flags.z (CPU.F (CPU.daa (CPU.sbc y (acc x cin)))))
                ((fromBCD x - fromBCD y - b2z cin) mod 100 =? 0)
    && negb (Flags.h (CPU.F (CPU.daa (CPU.sbc y (acc x cin)))))
    && Flags.n (CPU.F (CPU.daa (CPU.sbc y (acc x cin)))))
    bcdBytes) bcdBytes) [true; false] = true.
Proof. vm_compute. reflexivity. Qed.

(** X18: for packed-BCD bytes [x] and [y] and any carry flag, [adc]
    followed by [daa] leaves the packed BCD of the two low decimal digits
    of [x + y + carry] in the accumulator; carry is set exactly when that
    decimal sum exceeds 99, zero exactly when the two digits are 00, and
    half-carry and negative are clear.  Multi-byte BCD additions can
    therefore be chained through the carry. *)
Theorem daa_after_adc_bcd (x y : Z) (s : CPU.t) :
  isBCD x = true -> isBCD y = true -> CPU.A s = x ->
  let cin := b2z (Flags.c (CPU.F s)) in
  let s' := CPU.daa (CPU.adc y s) in
  CPU.A s' = toBCD ((fromBCD x + fromBCD y + cin) mod 100) /\
  (Flags.c (CPU.F s') = true <-> fromBCD x + fromBCD y + cin > 99) /\
  (Flags.z (CPU.F s') = true <-> (fromBCD x + fromBCD y + cin) mod 100 = 0) /\
  Flags.h (CPU.F s') = false /\ Flags.n (CPU.F s') = false.
Proof.
  intros Hx Hy HA. cbv zeta.
  destruct (daa_adc_reads y s) as [EA EF]. rewrite EA, EF, HA.
  pose proof (forall_bcd2 _ (forall_bool _ daa_after_adc_all (Flags.c (CPU.F s)))
                          x y Hx Hy) as Hok.
  cbv beta in Hok. rewrite !andb_true_iff, Z.eqb_eq, !negb_true_iff in Hok.
  destruct Hok as [[[[H1 H2] H3] H4] H5].
  apply Bool.eqb_prop in H2, H3.
  rewrite H2, H3, Z.ltb_lt, Z.eqb_eq.
  repeat split; try assumption; intros; lia.
Qed.

(** 0x99 + 0x00 with the carry set: the decimal sum is 100. *)
Lemma daa_after_adc_bcd_witness :
  let cin := b2z (Flags.c (CPU.F (acc 153 true))) in
  let s' := CPU.daa (CPU.adc 0 (acc 153 true)) in
  CPU.A s' = toBCD ((fromBCD 153 + fromBCD 0 + cin) mod 100) /\
  (Flags.c (CPU.F s') = true <-> fromBCD 153 + fromBCD 0 + cin > 99) /\
  (Flags.z (CPU.F s') = true <-> (fromBCD 153 + fromBCD 0 + cin) mod 100 = 0) /\
  Flags.h (CPU.F s') = false /\ Flags.n (CPU.F s') = false.
Proof.
  apply (daa_after_adc_bcd 153 0 (acc 153 true)); reflexivity.
Defined.

(** X19: for packed-BCD bytes [x] and [y] and any carry flag, [sbc]
    followed by [daa] leaves the packed BCD of [x - y - carry] modulo 100
    in the accumulator; carry (the decimal borrow) is set exactly when
    [x < y + carry] as decimal numbers, zero exactly when the result is 00,
    half-carry is clear and negative stays set. *)
Theorem daa_after_sbc_bcd (x y : Z) (s : CPU.t) :
  isBCD x = true -> isBCD y = true -> CPU.A s = x ->
  let cin := b2z (Flags.c (CPU.F s)) in
  let s' := CPU.daa (CPU.sbc y s) in
  CPU.A s' = toBCD ((fromBCD x - fromBCD y - cin) mod 100) /\
  (Flags.c (CPU.F s') = true <-> fromBCD x < fromBCD y + cin) /\
  (Flags.z (CPU.F s') = true <-> (fromBCD x - fromBCD y - cin) mod 100 = 0) /\
  Flags.h (CPU.F s') = false /\ Flags.n (CPU.F s') = true.
Proof.
  intros Hx Hy HA. cbv zeta.
  destruct (daa_sbc_reads y s) as [EA EF]. rewrite EA, EF, HA.
  pose proof (forall_bcd2 _ (forall_bool _ daa_after_sbc_all (Flags.c (CPU.F s)))
                          x y Hx Hy) as Hok.
  cbv beta in Hok. rewrite !andb_true_iff, Z.eqb_eq, !negb_true_iff in Hok.
  destruct Hok as [[[[H1 H2] H3] H4] H5].
  apply Bool.eqb_prop in H2, H3.
  rewrite H2, H3, Z.ltb_lt, Z.eqb_eq.
  repeat split; try assumption; intros; lia.
Qed.

(** 0x10 - 0x01: decimal 10 - 1 = 9. *)
Lemma daa_after_sbc_bcd_witness :
  let cin := b2z (Flags.c (CPU.F (acc 16 false))) in
  let s' := CPU.daa (CPU.sbc 1 (acc 16 false)) in
  CPU.A s' = toBCD ((fromBCD 16 - fromBCD 1 - cin) mod 100) /\
  (Flags.c (CPU.F s') = true <-> fromBCD 16 < fromBCD 1 + cin) /\
  (Flags.z (CPU.F s') = true <-> (fromBCD 16 - fromBCD 1 - cin) mod 100 = 0) /\
  Flags.h (CPU.F s') = false /\ Flags.n (CPU.F s') = true.
Proof.
  apply (daa_after_sbc_bcd 16 1 (acc 16 false)); reflexivity.
Defined.

(** ** The stack pointer under [inc_r16] and [dec_r16] *)

(** X20: [dec_r16] on SP stores [(SP - 1) mod 65536], which lies in
    [0,65535] whatever SP held (0 wraps to 0xFFFF), and changes no 8-bit
    register, flag or the program counter. *)
Theorem dec_r16_SP_wraps (s : CPU.t) :
  let s' := CPU.dec_r16 R16.SP s in
  CPU.SP s' = (CPU.SP s - 1) mod 65536 /\ 0 <= CPU.SP s' <= 65535 /\
  (forall r, CPU.getR8 r s' = CPU.getR8 r s) /\
  CPU.F s' = CPU.F s /\ CPU.PC s' = CPU.PC s.
Proof.
  cbv zeta.
  change (CPU.SP (CPU.dec_r16 R16.SP s)) with ((CPU.SP s - 1) mod 65536).
  pose proof (Z.mod_pos_bound (CPU.SP s - 1) 65536).
  repeat split; lia.
Qed.

(** X21: for SP within [0,65535], [inc_r16] on SP followed by [dec_r16] on
    SP restores SP, also from 0xFFFF, where the increment leaves 0x10000. *)
Theorem inc_dec_SP_roundtrip (s : CPU.t) :
  0 <= CPU.SP s <= 65535 ->
  CPU.SP (CPU.dec_r16 R16.SP (CPU.inc_r16 R16.SP s)) = CPU.SP s.
Proof.
  intros Hsp.
  change (CPU.SP (CPU.dec_r16 R16.SP (CPU.inc_r16 R16.SP s)))
    with ((CPU.SP s + 1 - 1) mod 65536).
  Z.div_mod_to_equations. lia.
Qed.

Lemma inc_dec_SP_roundtrip_witness :
  CPU.SP (CPU.dec_r16 R16.SP (CPU.inc_r16 R16.SP (CPU.set_SP 65535 reset)))
  = CPU.SP (CPU.set_SP 65535 reset).
Proof.
  apply (inc_dec_SP_roundtrip (CPU.set_SP 65535 reset)). cbn. lia.
Defined.

(** ** Memory through HL *)

Lemma rb_wb_same (m : MMU.t) (addr val : Z) :
  MMU.rb (MMU.wb m addr val) addr = val.
Proof. unfold MMU.rb, MMU.wb. cbn. now rewrite Z.eqb_refl. Qed.

Lemma rb_wb_other (m : MMU.t) (addr val a : Z) :
  a <> addr -> MMU.rb (MMU.wb m addr val) a = MMU.rb m a.
Proof.
  intros Ha. unfold MMU.rb, MMU.wb. cbn.
  destruct (Z.eqb_spec a addr); [contradiction | reflexivity].
Qed.

(** X22: storing a register at (HL) with [ld_valHL_r8] and loading (HL)
    into a register with [ld_r8_valHL] moves the value from the first
    register to the second, also when either register is H or L; the store
    changes no register and no other address. *)
Theorem store_load_via_HL (r1 r2 : R8.t) (s : CPU.t) :
  CPU.getR8 r2 (CPU.ld_r8_valHL r2 (CPU.ld_valHL_r8 r1 s)) = CPU.getR8 r1 s /\
  (forall r, CPU.getR8 r (CPU.ld_valHL_r8 r1 s) = CPU.getR8 r s) /\
  (forall a, a <> CPU.getHL s ->
     MMU.rb (CPU.mmu (CPU.ld_valHL_r8 r1 s)) a = MMU.rb (CPU.mmu s) a).
Proof.
  split; [|split].
  - transitivity (MMU.rb (CPU.mmu (CPU.ld_valHL_r8 r1 s))
                         (CPU.getHL (CPU.ld_valHL_r8 r1 s))).
    + destruct r2; reflexivity.
    + change (CPU.mmu (CPU.ld_valHL_r8 r1 s))
        with (MMU.wb (CPU.mmu s) (CPU.getHL s) (CPU.getR8 r1 s)).
      change (CPU.getHL (CPU.ld_valHL_r8 r1 s)) with (CPU.getHL s).
      apply rb_wb_same.
  - intros r; destruct r; reflexivity.
  - intros a Ha.
    change (CPU.mmu (CPU.ld_valHL_r8 r1 s))
      with (MMU.wb (CPU.mmu s) (CPU.getHL s) (CPU.getR8 r1 s)).
    now apply rb_wb_other.
Qed.

Lemma inc_valHL_mmu (s : CPU.t) :
  CPU.mmu (CPU.inc_valHL s)
  = MMU.wb (CPU.mmu s) (CPU.getHL s)
           (Utils.uint8 (MMU.rb (CPU.mmu s) (CPU.getHL s) + 1)).
Proof. reflexivity. Qed.

Lemma dec_valHL_mmu (s : CPU.t) :
  CPU.mmu (CPU.dec_valHL s)
  = MMU.wb (CPU.mmu s) (CPU.getHL s)
           (Utils.uint8 (MMU.rb (CPU.mmu s) (CPU.getHL s) - 1)).
Proof. reflexivity. Qed.

Lemma inc_valHL_HL (s : CPU.t) : CPU.getHL (CPU.inc_valHL s) = CPU.getHL s.
Proof. reflexivity. Qed.

Lemma inc_valHL_F (s : CPU.t) :
  CPU.F (CPU.inc_valHL s)
  = Flags.mk (Utils.uint8 (MMU.rb (CPU.mmu s) (CPU.getHL s) + 1) =? 0) false
      (Utils.addHalfCarriesByte (MMU.rb (CPU.mmu s) (CPU.getHL s)) 1 0)
      (Flags.c (CPU.F s)).
Proof. reflexivity. Qed.

(** X23: [inc_valHL] replaces the byte [b] at address HL by
    [(b + 1) mod 256] and leaves every other address and every register
    alone; zero is set iff [b = 255], half-carry iff the low nibble of [b]
    is 0xF, negative is cleared and carry is kept. *)
Theorem inc_valHL_spec (s : CPU.t) :
  0 <= MMU.rb (CPU.mmu s) (CPU.getHL s) <= 255 ->
  let b := MMU.rb (CPU.mmu s) (CPU.getHL s) in
  let s' := CPU.inc_valHL s in
  MMU.rb (CPU.mmu s') (CPU.getHL s) = (b + 1) mod 256 /\
  (forall a, a <> CPU.getHL s -> MMU.rb (CPU.mmu s') a = MMU.rb (CPU.mmu s) a) /\
  (forall r, CPU.getR8 r s' = CPU.getR8 r s) /\
  (Flags.z (CPU.F s') = true <-> b = 255) /\
  Flags.n (CPU.F s') = false /\
  (Flags.h (CPU.F s') = true <-> b mod 16 = 15) /\
  Flags.c (CPU.F s') = Flags.c (CPU.F s).
Proof.
  intros Hb. cbv zeta. rewrite inc_valHL_mmu, inc_valHL_F, rb_wb_same.
  cbn [Flags.z Flags.n Flags.h Flags.c].
  unfold Utils.uint8, Utils.addHalfCarriesByte.
  rewrite !band_15, Z.eqb_eq, Z.ltb_lt.
  split; [reflexivity|].
  split; [intros a Ha; now apply rb_wb_other|].
  split; [intros r; destruct r; reflexivity|].
  repeat split; intros; Z.div_mod_to_equations; lia.
Qed.

Lemma inc_valHL_spec_witness :
  let b := MMU.rb (CPU.mmu reset) (CPU.getHL reset) in
  let s' := CPU.inc_valHL reset in
  MMU.rb (CPU.mmu s') (CPU.getHL reset) = (b + 1) mod 256 /\
  (forall a, a <> CPU.getHL reset ->
     MMU.rb (CPU.mmu s') a = MMU.rb (CPU.mmu reset) a) /\
  (forall r, CPU.getR8 r s' = CPU.getR8 r reset) /\
  (Flags.z (CPU.F s') = true <-> b = 255) /\
  Flags.n (CPU.F s') = false /\
  (Flags.h (CPU.F s') = true <-> b mod 16 = 15) /\
  Flags.c (CPU.F s') = Flags.c (CPU.F reset).
Proof.
  apply (inc_valHL_spec reset). vm_compute. split; discriminate.
Defined.

(** X24: when the byte at address HL is within [0,255], [inc_valHL]
    followed by [dec_valHL] leaves every address of the memory with the
    byte it had. *)
Theorem inc_dec_valHL_roundtrip (s : CPU.t) :
  0 <= MMU.rb (CPU.mmu s) (CPU.getHL s) <= 255 ->
  forall a,
    MMU.rb (CPU.mmu (CPU.dec_valHL (CPU.inc_valHL s))) a = MMU.rb (CPU.mmu s) a.
Proof.
  intros Hb a. rewrite dec_valHL_mmu, inc_valHL_HL, inc_valHL_mmu, rb_wb_same.
  destruct (Z.eq_dec a (CPU.getHL s)) as [->|Ha].
  - rewrite rb_wb_same. unfold Utils.uint8. Z.div_mod_to_equations. lia.
  - now rewrite !rb_wb_other by exact Ha.
Qed.

Lemma inc_dec_valHL_roundtrip_witness :
  MMU.rb (CPU.mmu (CPU.dec_valHL (CPU.inc_valHL reset))) 0
  = MMU.rb (CPU.mmu reset) 0.
Proof.
  apply (inc_dec_valHL_roundtrip reset). vm_compute. split; discriminate.
Defined.

(** ** All the handlers at once

    A call of one of the handlers embedded above, with its arguments, as a
    value, so that a property can be stated for every handler. *)
Module Call.
Inductive t : Set :=
| inc_r8 (reg8 : R8.t)
| dec_r8 (reg8 : R8.t)
| inc_r16 (reg16 : R16.t)
| ld_r8_d8 (reg8 : R8.t)
| rlc_A
| rrc_A
| add_HL_r16 (reg16 : R16.t)
| dec_r16 (reg16 : R16.t)
| ld_valr16_A (reg16 : R16.t)
| ld_valHLinc_A
| ld_A_valHLdec
| ld_valHLdec_A
| ld_A_valHLinc
| ld_valHL_d8
| ld_r8_valHL (reg8 : R8.t)
| ld_valHL_r8 (reg8 : R8.t)
| inc_valHL
| dec_valHL
| rl_A
| rr_A
| add (byte : Z)
| adc (val : Z)
| sub (val : Z)
| sbc (val : Z)
| and (val : Z)
| xor (val : Z)
| or (val : Z)
| cp (val : Z)
| daa
| cpl
| scf
| ccf.
End Call.

Definition run (call : Call.t) (this : CPU.t) : CPU.t :=
  match call with
  | Call.inc_r8 r => CPU.inc_r8 r this
  | Call.dec_r8 r => CPU.dec_r8 r this
  | Call.inc_r16 r => CPU.inc_r16 r this
  | Call.ld_r8_d8 r => CPU.ld_r8_d8 r this
  | Call.rlc_A => CPU.rlc_A this
  | Call.rrc_A => CPU.rrc_A this
  | Call.add_HL_r16 r => CPU.add_HL_r16 r this
  | Call.dec_r16 r => CPU.dec_r16 r this
  | Call.ld_valr16_A r => CPU.ld_valr16_A r this
  | Call.ld_valHLinc_A => CPU.ld_valHLinc_A this
  | Call.ld_A_valHLdec => CPU.ld_A_valHLdec this
  | Call.ld_valHLdec_A => CPU.ld_valHLdec_A this
  | Call.ld_A_valHLinc => CPU.ld_A_valHLinc this
  | Call.ld_valHL_d8 => CPU.ld_valHL_d8 this
  | Call.ld_r8_valHL r => CPU.ld_r8_valHL r this
  | Call.ld_valHL_r8 r => CPU.ld_valHL_r8 r this
  | Call.inc_valHL => CPU.inc_valHL this
  | Call.dec_valHL => CPU.dec_valHL this
  | Call.rl_A => CPU.rl_A this
  | Call.rr_A => CPU.rr_A this
  | Call.add v => CPU.add v this
  | Call.adc v => CPU.adc v this
  | Call.sub v => CPU.sub v this
  | Call.sbc v => CPU.sbc v this
  | Call.and v => CPU.and v this
  | Call.xor v => CPU.xor v this
  | Call.or v => CPU.or v this
  | Call.cp v => CPU.cp v this
  | Call.daa => CPU.daa this
  | Call.cpl => CPU.cpl this
  | Call.scf => CPU.scf this
  | Call.ccf => CPU.ccf this
  end.

Ltac destruct_ifs :=
  repeat match goal with
         | |- context [if ?b then _ else _] => destruct b
         end.

Ltac unfold_handlers :=
  cbv beta iota delta
      [run CPU.inc_r8 CPU.dec_r8 CPU.inc_r16 CPU.ld_r8_d8 CPU.rlc_A CPU.rrc_A
       CPU.add_HL_r16 CPU.dec_r16 CPU.ld_valr16_A CPU.ld_valHLinc_A
       CPU.ld_A_valHLdec CPU.ld_valHLdec_A CPU.ld_A_valHLinc CPU.ld_valHL_d8
       CPU.ld_r8_valHL CPU.ld_valHL_r8 CPU.inc_valHL CPU.dec_valHL CPU.rl_A
       CPU.rr_A CPU.add CPU.adc CPU.sub CPU.sbc CPU.and CPU.xor CPU.or CPU.cp
       CPU.daa CPU.cpl CPU.scf CPU.ccf CPU.setR16 CPU.setR8 CPU.setBC
       CPU.setDE CPU.setHL].

(** X25: no handler assigns the interrupt, power or jump fields: after any
    handler call [ime], [setIMENext], [halted], [stopped] and [jumped] are
    what they were before it. *)
Theorem handlers_keep_control_fields (call : Call.t) (s : CPU.t) :
  CPU.ime (run call s) = CPU.ime s /\
  CPU.setIMENext (run call s) = CPU.setIMENext s /\
  CPU.halted (run call s) = CPU.halted s /\
  CPU.stopped (run call s) = CPU.stopped s /\
  CPU.jumped (run call s) = CPU.jumped s.
Proof.
  destruct call as
    [r|r|r|r| | |r|r|r| | | | | |r|r| | | | |v|v|v|v|v|v|v|v| | | | ];
    try destruct r; unfold_handlers; cbv zeta; destruct_ifs;
    repeat split; reflexivity.
Qed.

(** ** The register-width invariant *)

Definition is_byte (x : Z) : Prop := 0 <= x <= 255.
Definition is_word (x : Z) : Prop := 0 <= x <= 65535.

(** Every 8-bit register holds a byte, SP and PC hold 16-bit words, and
    every address of the memory holds a byte. *)
Definition state_ok (s : CPU.t) : Prop :=
  is_byte (CPU.A s) /\ is_byte (CPU.B s) /\ is_byte (CPU.C s) /\
  is_byte (CPU.D s) /\ is_byte (CPU.E s) /\ is_byte (CPU.H s) /\
  is_byte (CPU.L s) /\ is_word (CPU.SP s) /\ is_word (CPU.PC s) /\
  (forall a, is_byte (MMU.rb (CPU.mmu s) a)).

(** What a call needs for the invariant to survive it: the two rotates to
    the left need bit 7 of the accumulator clear, the increment of SP and
    the two handlers that fetch an operand byte need room below 0xFFFF,
    and [or] and [xor] need a byte operand; the other calls need nothing. *)
Definition safe (call : Call.t) (s : CPU.t) : Prop :=
  match call with
  | Call.rlc_A | Call.rl_A => CPU.A s < 128
  | Call.inc_r16 R16.SP => CPU.SP s < 65535
  | Call.ld_r8_d8 _ | Call.ld_valHL_d8 => CPU.PC s < 65535
  | Call.or v | Call.xor v => is_byte v
  | _ => True
  end.

Lemma is_byte_uint8 (x : Z) : is_byte (Utils.uint8 x).
Proof. apply byte_mod. Qed.

Lemma is_word_uint16 (x : Z) : is_word (Utils.uint16 x).
Proof.
  unfold is_word, Utils.uint16. pose proof (Z.mod_pos_bound x 65536). lia.
Qed.

Lemma is_byte_band_255 (w : Z) : is_byte (JS.band w 255).
Proof. rewrite band_255. apply byte_mod. Qed.

Lemma is_byte_band_hi (w : Z) : is_byte (JS.band w (JS.shr 65280 8)).
Proof. change (JS.shr 65280 8) with 255. apply is_byte_band_255. Qed.

(** [a & w] is a byte when [a] is, whatever [w] is. *)
Lemma is_byte_band_l (a w : Z) : is_byte a -> is_byte (JS.band a w).
Proof.
  intros Ha. unfold is_byte in *. unfold JS.band.
  rewrite (ToInt32_small a) by lia.
  replace a with (Z.land a 255) at 1 2
    by (rewrite land_255; apply Z.mod_small; lia).
  rewrite <- Z.land_assoc, (Z.land_comm 255), Z.land_assoc, land_255.
  apply byte_mod.
Qed.

Lemma is_byte_bor (a v : Z) : is_byte a -> is_byte v -> is_byte (JS.bor a v).
Proof.
  intros Ha Hv. unfold is_byte in *.
  pose proof (forall_bytes2 _ bor_bytes_all a v Ha Hv) as Hok.
  cbv beta in Hok. rewrite !andb_true_iff in Hok.
  destruct Hok as [[[H1 H2] H3] H4]. apply Z.leb_le in H2, H3. lia.
Qed.

Lemma rotate_ranges_all :
  forallb (fun a =>
    (0 <=? JS.shr a 1) && (JS.shr a 1 <=? 255)
    && (0 <=? JS.bor (JS.shr a 1) 128) && (JS.bor (JS.shr a 1) 128 <=? 255)
    && (0 <=? JS.bor (JS.shr a 1) (JS.shl 1 7))
    && (JS.bor (JS.shr a 1) (JS.shl 1 7) <=? 255)
    && (0 <=? JS.bor (JS.shr a 1) (JS.shl 0 7))
    && (JS.bor (JS.shr a 1) (JS.shl 0 7) <=? 255)
    && (0 <=? JS.bxor a 255) && (JS.bxor a 255 <=? 255)
    && implb (a <? 128)
         ((0 <=? JS.shl a 1) && (JS.shl a 1 <=? 255)
          && (0 <=? JS.bor (JS.shl a 1) 1) && (JS.bor (JS.shl a 1) 1 <=? 255)
          && (0 <=? JS.bor (JS.shl a 1) 0) && (JS.bor (JS.shl a 1) 0 <=? 255)))
    bytes = true.
Proof. vm_compute. reflexivity. Qed.

Lemma rotate_ranges (a : Z) :
  is_byte a ->
  is_byte (JS.shr a 1) /\ is_byte (JS.bor (JS.shr a 1) 128) /\
  is_byte (JS.bor (JS.shr a 1) (JS.shl 1 7)) /\
  is_byte (JS.bor (JS.shr a 1) (JS.shl 0 7)) /\
  is_byte (JS.bxor a 255) /\
  (a < 128 ->
   is_byte (JS.shl a 1) /\ is_byte (JS.bor (JS.shl a 1) 1) /\
   is_byte (JS.bor (JS.shl a 1) 0)).
Proof.
  intros Ha. unfold is_byte in *.
  pose proof (forall_bytes _ rotate_ranges_all a Ha) as Hok.
  cbv beta in Hok. rewrite !andb_true_iff, !Z.leb_le in Hok.
  destruct Hok as [Hr Hl].
  assert (Himp : a < 128 ->
                 (0 <= JS.shl a 1 <= 255) /\ (0 <= JS.bor (JS.shl a 1) 1 <= 255)
                 /\ (0 <= JS.bor (JS.shl a 1) 0 <= 255)).
  { intros Hlt. apply Z.ltb_lt in Hlt. rewrite Hlt in Hl. cbn [implb] in Hl.
    rewrite !andb_true_iff, !Z.leb_le in Hl. tauto. }
  tauto.
Qed.

Lemma is_byte_rb_wb (m : MMU.t) (addr val a : Z) :
  (forall x, is_byte (MMU.rb m x)) -> is_byte val ->
  is_byte (MMU.rb (MMU.wb m addr val) a).
Proof.
  intros Hm Hv. unfold MMU.rb, MMU.wb. cbn.
  destruct (a =? addr); [exact Hv | apply Hm].
Qed.

Lemma is_word_succ (x : Z) : is_word x -> x < 65535 -> is_word (x + 1).
Proof. unfold is_word. lia. Qed.

Create HintDb widths.
#[local] Hint Resolve is_byte_uint8 is_word_uint16 is_byte_band_255
  is_byte_band_hi is_byte_band_l is_byte_bor is_byte_rb_wb is_word_succ
  : widths.

Ltac fields :=
  cbn [CPU.A CPU.B CPU.C CPU.D CPU.E CPU.H CPU.L CPU.F CPU.SP CPU.PC
       CPU.halted CPU.stopped CPU.jumped CPU.ime CPU.setIMENext CPU.mmu
       CPU.console CPU.set_A CPU.set_B CPU.set_C CPU.set_D CPU.set_E
       CPU.set_H CPU.set_L CPU.set_F CPU.set_SP CPU.set_PC CPU.set_mmu
       CPU.set_z CPU.set_n CPU.set_h CPU.set_c CPU.warn CPU.getR8
       Flags.z Flags.n Flags.h Flags.c] in *.

(** X26: every handler call keeps the register-width invariant (8-bit
    registers and memory cells within [0,255], SP and PC within [0,65535])
    when the call is [safe]: the only calls that can break it are [rlc_A]
    and [rl_A] with bit 7 of the accumulator set, [inc_r16] on SP at
    0xFFFF, [ld_r8_d8] and [ld_valHL_d8] with PC at 0xFFFF, and [or] and
    [xor] with an operand that is not a byte. *)
Theorem handlers_keep_widths (call : Call.t) (s : CPU.t) :
  state_ok s -> safe call s -> state_ok (run call s).
Proof.
  intros Hok Hsafe.
  destruct s as [a b c d e h l f sp pc ha st ju im si m co].
  unfold state_ok in *. fields.
  destruct Hok as (HA & HB & HC & HD & HE & HH & HL & HSP & HPC & Hmem).
  destruct (rotate_ranges a HA) as (R1 & R2 & R3 & R4 & R5 & R6).
  destruct call as
    [r|r|r|r| | |r|r|r| | | | | |r|r| | | | |v|v|v|v|v|v|v|v| | | | ];
    try destruct r; cbn [safe] in Hsafe; fields;
    try (destruct (R6 Hsafe) as (L1 & L2 & L3));
    unfold_handlers; cbv zeta; fields; destruct_ifs; fields;
    repeat match goal with |- _ /\ _ => split end;
    auto with widths.
Qed.

Lemma state_ok_reset_A (x : Z) : is_byte x -> state_ok (CPU.set_A x reset).
Proof.
  intros Hx. unfold state_ok, is_byte, is_word in *. cbn.
  repeat split; try lia; exact Hx.
Qed.

(** [rlc_A] on accumulator 100, from the initial state. *)
Lemma handlers_keep_widths_witness :
  state_ok (run Call.rlc_A (CPU.set_A 100 reset)).
Proof.
  apply (handlers_keep_widths Call.rlc_A (CPU.set_A 100 reset)).
  - apply state_ok_reset_A. unfold is_byte. lia.
  - cbn. lia.
Defined.

(** ** The dispatcher: what a step returns *)

(** X27: when [step] returns, the state it returns is exactly the one
    [execute] returned: [step] itself only clears [jumped] and, after the
    prefix byte 0xCB, moves PC to the next byte, which is then the opcode,
    looked up in the prefixed table.  The count is fixed by the entry and
    by [jumped]: it is the entry's [cycles] when the handler set [jumped],
    when the entry has no alternate cost and when the alternate cost is 0;
    when the handler did not set [jumped] and the alternate cost is not 0,
    it is that alternate cost. *)
Theorem step_result (utab ptab : Opcodes.table)
        (exec : Z -> bool -> CPU.t -> result CPU.t) (s s' : CPU.t) (k : Z) :
  CPU.step utab ptab exec s = Ok (s', k) ->
  exists opcode d,
    ((MMU.rb (CPU.mmu s) (CPU.PC s) <> 203 /\
      opcode = MMU.rb (CPU.mmu s) (CPU.PC s) /\
      exec opcode false (CPU.set_jumped false s) = Ok s' /\
      utab opcode = Some d)
     \/
     (MMU.rb (CPU.mmu s) (CPU.PC s) = 203 /\
      opcode = MMU.rb (CPU.mmu s) (CPU.PC s + 1) /\
      exec opcode true (CPU.set_PC (CPU.PC s + 1) (CPU.set_jumped false s))
      = Ok s' /\
      ptab opcode = Some d)) /\
    (CPU.jumped s' = true -> k = Opcodes.cycles d) /\
    (Opcodes.cyclesIfNoJump d = None -> k = Opcodes.cycles d) /\
    (Opcodes.cyclesIfNoJump d = Some 0 -> k = Opcodes.cycles d) /\
    (forall alt,
        CPU.jumped s' = false -> Opcodes.cyclesIfNoJump d = Some alt ->
        alt <> 0 -> k = alt).
Proof.
  unfold CPU.step.
  change (MMU.rb (CPU.mmu (CPU.set_jumped false s))
                 (CPU.PC (CPU.set_jumped false s)))
    with (MMU.rb (CPU.mmu s) (CPU.PC s)).
  destruct (Z.eqb_spec (MMU.rb (CPU.mmu s) (CPU.PC s)) 203) as [Ecb|Ecb].
  - change (MMU.rb
              (CPU.mmu (CPU.set_PC (CPU.PC (CPU.set_jumped false s) + 1)
                                   (CPU.set_jumped false s)))
              (CPU.PC (CPU.set_PC (CPU.PC (CPU.set_jumped false s) + 1)
                                  (CPU.set_jumped false s))))
      with (MMU.rb (CPU.mmu s) (CPU.PC s + 1)).
    change (CPU.PC (CPU.set_jumped false s)) with (CPU.PC s).
    destruct (exec _ true _) as [s1|e] eqn:Hrun; [|discriminate].
    destruct (ptab _) as [d|] eqn:Hd; [|discriminate].
    intros Hret. exists (MMU.rb (CPU.mmu s) (CPU.PC s + 1)), d.
    destruct (CPU.jumped s1) eqn:Hj;
      [|destruct (Opcodes.cyclesIfNoJump d) as [alt|] eqn:Halt;
        [destruct (Z.eqb_spec alt 0)|]];
      inversion Hret; subst;
      (split; [right; auto|]); repeat split; intros; congruence.
  - destruct (exec _ false _) as [s1|e] eqn:Hrun; [|discriminate].
    destruct (utab _) as [d|] eqn:Hd; [|discriminate].
    intros Hret. exists (MMU.rb (CPU.mmu s) (CPU.PC s)), d.
    destruct (CPU.jumped s1) eqn:Hj;
      [|destruct (Opcodes.cyclesIfNoJump d) as [alt|] eqn:Halt;
        [destruct (Z.eqb_spec alt 0)|]];
      inversion Hret; subst;
      (split; [left; auto|]); repeat split; intros; congruence.
Qed.

(** An entry with base cost 12 and alternate cost 8, and a handler that
    returns without setting [jumped]: the step costs 8. *)
Lemma step_result_witness :
  exists opcode d,
    ((MMU.rb (CPU.mmu reset) (CPU.PC reset) <> 203 /\
      opcode = MMU.rb (CPU.mmu reset) (CPU.PC reset) /\
      execute_nothing opcode false (CPU.set_jumped false reset) = Ok reset /\
      table_12_8 opcode = Some d)
     \/
     (MMU.rb (CPU.mmu reset) (CPU.PC reset) = 203 /\
      opcode = MMU.rb (CPU.mmu reset) (CPU.PC reset + 1) /\
      execute_nothing opcode true
                      (CPU.set_PC (CPU.PC reset + 1) (CPU.set_jumped false reset))
      = Ok reset /\
      table_12_8 opcode = Some d)) /\
    (CPU.jumped reset = true -> 8 = Opcodes.cycles d) /\
    (Opcodes.cyclesIfNoJump d = None -> 8 = Opcodes.cycles d) /\
    (Opcodes.cyclesIfNoJump d = Some 0 -> 8 = Opcodes.cycles d) /\
    (forall alt,
        CPU.jumped reset = false -> Opcodes.cyclesIfNoJump d = Some alt ->
        alt <> 0 -> 8 = alt).
Proof.
  apply (step_result table_12_8 table_12_8 execute_nothing reset reset 8).
  vm_compute. reflexivity.
Defined.

(** X28: when the table selected by the fetched byte (the prefixed table
    after 0xCB, the unprefixed one otherwise) has no entry for the opcode,
    [step] returns no cycle count: it throws, whatever [execute] did. *)
Theorem step_missing_entry_throws (utab ptab : Opcodes.table)
        (exec : Z -> bool -> CPU.t -> result CPU.t) (s : CPU.t) :
  (if MMU.rb (CPU.mmu s) (CPU.PC s) =? 203
   then ptab (MMU.rb (CPU.mmu s) (CPU.PC s + 1))
   else utab (MMU.rb (CPU.mmu s) (CPU.PC s))) = None ->
  exists e, CPU.step utab ptab exec s = Throw e.
Proof.
  unfold CPU.step.
  change (MMU.rb (CPU.mmu (CPU.set_jumped false s))
                 (CPU.PC (CPU.set_jumped false s)))
    with (MMU.rb (CPU.mmu s) (CPU.PC s)).
  destruct (MMU.rb (CPU.mmu s) (CPU.PC s) =? 203); intros Hnone.
  - change (MMU.rb
              (CPU.mmu (CPU.set_PC (CPU.PC (CPU.set_jumped false s) + 1)
                                   (CPU.set_jumped false s)))
              (CPU.PC (CPU.set_PC (CPU.PC (CPU.set_jumped false s) + 1)
                                  (CPU.set_jumped false s))))
      with (MMU.rb (CPU.mmu s) (CPU.PC s + 1)).
    rewrite Hnone. destruct (exec _ true _) as [s1|e]; eauto.
  - rewrite Hnone. destruct (exec _ false _) as [s1|e]; eauto.
Qed.

(** Empty tables and an [execute] that returns: the handler runs, and the
    step still throws, for want of an entry. *)
Lemma step_missing_entry_throws_witness :
  exists e,
    CPU.step (fun _ => None) (fun _ => None) execute_nothing reset = Throw e.
Proof.
  apply (step_missing_entry_throws (fun _ => None) (fun _ => None)
           execute_nothing reset).
  reflexivity.
Defined.

(** X29: an error thrown by [execute] is the error [step] throws, also
    when the table has no entry for the opcode. *)
Theorem step_propagates_throw (utab ptab : Opcodes.table)
        (exec : Z -> bool -> CPU.t -> result CPU.t) (s : CPU.t) (e : string) :
  (if MMU.rb (CPU.mmu s) (CPU.PC s) =? 203
   then exec (MMU.rb (CPU.mmu s) (CPU.PC s + 1)) true
             (CPU.set_PC (CPU.PC s + 1) (CPU.set_jumped false s))
   else exec (MMU.rb (CPU.mmu s) (CPU.PC s)) false (CPU.set_jumped false s))
  = Throw e ->
  CPU.step utab ptab exec s = Throw e.
Proof.
  unfold CPU.step.
  change (MMU.rb (CPU.mmu (CPU.set_jumped false s))
                 (CPU.PC (CPU.set_jumped false s)))
    with (MMU.rb (CPU.mmu s) (CPU.PC s)).
  destruct (MMU.rb (CPU.mmu s) (CPU.PC s) =? 203); intros Hthrow.
  - change (MMU.rb
              (CPU.mmu (CPU.set_PC (CPU.PC (CPU.set_jumped false s) + 1)
                                   (CPU.set_jumped false s)))
              (CPU.PC (CPU.set_PC (CPU.PC (CPU.set_jumped false s) + 1)
                                  (CPU.set_jumped false s))))
      with (MMU.rb (CPU.mmu s) (CPU.PC s + 1)).
    change (CPU.PC (CPU.set_jumped false s)) with (CPU.PC s).
    now rewrite Hthrow.
  - now rewrite Hthrow.
Qed.

(** Opcode 0x01 everywhere: [execute] knows only nop and ei. *)
Lemma step_propagates_throw_witness :
  CPU.step unprefixedOpcodeTable prefixedOpcodeTable execute
           (CPU.new (MMU.mk (fun _ => 1))) = Throw "MalformedOpcode".
Proof.
  apply (step_propagates_throw unprefixedOpcodeTable prefixedOpcodeTable
           execute (CPU.new (MMU.mk (fun _ => 1))) "MalformedOpcode").
  reflexivity.
Defined.

(** ** 16-bit addition to HL *)

Lemma land_4095 (x : Z) : Z.land x 4095 = x mod 4096.
Proof. apply (Z.land_ones x 12). lia. Qed.

Lemma band_4095 (w : Z) : JS.band w 4095 = w mod 4096.
Proof.
  unfold JS.band. rewrite (ToInt32_small 4095) by lia.
  rewrite land_4095. unfold JS.ToInt32.
  destruct (2147483648 <=? w mod 4294967296);
    Z.div_mod_to_equations; lia.
Qed.

Lemma add_HL_r16_F (reg16 : R16.t) (s : CPU.t) :
  CPU.F (CPU.add_HL_r16 reg16 s)
  = Flags.mk (Flags.z (CPU.F s)) false
      (Utils.addHalfCarriesWord (CPU.getHL s) (CPU.getR16 reg16 s))
      (Utils.addCarriesWord (CPU.getHL s) (CPU.getR16 reg16 s)).
Proof. reflexivity. Qed.

(** X30: [add_HL_r16] keeps the zero flag and the accumulator, clears
    negative, sets carry iff HL plus the operand pair exceeds 0xFFFF and
    half-carry iff their low 12 bits sum to more than 0xFFF; the low byte
    of the sum goes to L. *)
Theorem add_HL_r16_flags (reg16 : R16.t) (s : CPU.t) :
  let hl := CPU.getHL s in
  let v := CPU.getR16 reg16 s in
  let s' := CPU.add_HL_r16 reg16 s in
  (Flags.c (CPU.F s') = true <-> hl + v > 65535) /\
  (Flags.h (CPU.F s') = true <-> hl mod 4096 + v mod 4096 > 4095) /\
  Flags.n (CPU.F s') = false /\
  Flags.z (CPU.F s') = Flags.z (CPU.F s) /\
  CPU.A s' = CPU.A s /\
  CPU.L s' = (hl + v) mod 256.
Proof.
  cbv zeta. rewrite add_HL_r16_F. cbn [Flags.z Flags.n Flags.h Flags.c].
  unfold Utils.addCarriesWord, Utils.addHalfCarriesWord.
  rewrite !band_4095, !Z.ltb_lt.
  change (CPU.L (CPU.add_HL_r16 reg16 s))
    with (JS.band (Utils.uint16 (CPU.getHL s + CPU.getR16 reg16 s)) 255).
  rewrite band_255. unfold Utils.uint16.
  repeat split; try lia. Z.div_mod_to_equations. lia.
Qed.
